(** * gonids: rendering of IDS rules (rule.go)

    A shallow embedding of the renderers of [rule.go]: the sticky-buffer and
    byte-matcher keyword tables, [FastPattern], [Flowbit], [ByteMatch],
    [Content] (with the pattern encoder [FormatPattern] and the loose
    regular expression [ToRegexp]) and [Rule] (with [String] and [RE]).

    Conventions.
    - A Go [string] is a sequence of bytes: it is a [string] here, one
      [ascii] per byte.  A [[]byte] is a [list byte].
    - A Go [int] (and the integer types [DataPos] and [byteMatcher] built on
      it) is a [Z].  The renderers only compare these numbers with constants
      and print them, so no wrap-around is ever computed; every statement
      below holds for all of [Z], hence for the 64-bit range.
    - A [strings.Builder] or [bytes.Buffer] is the [string] written so far;
      a write appends on the right.
    - A Go map is a [gmap].  A [range] over a map visits its entries in an
      order Go leaves unspecified: the functions that range over a map take
      the order of the visit as an argument, and the statements about them
      quantify over every permutation of the map's entries. *)

From Stdlib Require Import ZArith NArith List Lia.
From Stdlib Require Import Strings.String Strings.Ascii Strings.Byte Numbers.DecimalString.
From stdpp Require Import base gmap list strings.

Local Open Scope Z_scope.

(** ** Strings *)

(** The double quote, which the renderers write around patterns. *)
Definition dquote : string := String (ascii_of_nat 34) EmptyString.

(** [string(b)] for a byte slice [b]. *)
Definition string_of_bytes (bs : list byte) : string := string_of_list_byte bs.

(** [WriteByte]: the one-byte string. *)
Definition byte_string (b : byte) : string := String (ascii_of_byte b) EmptyString.

(** The concatenation of a list of strings, in order. *)
Fixpoint concat_strings (l : list string) : string :=
  match l with
  | [] => EmptyString
  | s :: r => s +:+ concat_strings r
  end.

(** [contains s sub]: [sub] occurs in [s]. *)
Definition contains (s sub : string) : Prop :=
  exists pre post : string, s = pre +:+ sub +:+ post.

(** [has_byte a s]: the byte [a] occurs in [s]. *)
Fixpoint has_byte (a : ascii) (s : string) : bool :=
  match s with
  | EmptyString => false
  | String c r => Ascii.eqb c a || has_byte a r
  end.

(** ** The verbs of [fmt] the renderers use *)

(** [%d] of an [int]: decimal digits, a leading [-] when negative. *)
Definition fmt_d (n : Z) : string := NilZero.string_of_int (Z.to_int n).

(** One uppercase hexadecimal digit. *)
Definition hex_digit (n : N) : ascii :=
  match n with
  | 0%N => "0" | 1%N => "1" | 2%N => "2" | 3%N => "3"
  | 4%N => "4" | 5%N => "5" | 6%N => "6" | 7%N => "7"
  | 8%N => "8" | 9%N => "9" | 10%N => "A" | 11%N => "B"
  | 12%N => "C" | 13%N => "D" | 14%N => "E" | _ => "F"
  end%char.

(** [%.2X] of a byte: two uppercase hexadecimal digits. *)
Definition fmt_02X (b : byte) : string :=
  String (hex_digit (Byte.to_N b / 16)) (String (hex_digit (Byte.to_N b mod 16)) EmptyString).

(** ** [strconv.Atoi] (Go's standard library)

    An optional sign, then one or more decimal digits and nothing else; the
    value has to fit an [int] (64 bits).  [None] stands for a non-nil error. *)

Definition int_min : Z := - 2 ^ 63.
Definition int_max : Z := 2 ^ 63 - 1.

Definition digit_value (c : ascii) : option Z :=
  let n := N_of_ascii c in
  if ((48 <=? n) && (n <=? 57))%N then Some (Z.of_N n - 48) else None.

Fixpoint parse_digits (s : string) (acc : Z) : option Z :=
  match s with
  | EmptyString => Some acc
  | String c r =>
      match digit_value c with
      | Some d => parse_digits r (acc * 10 + d)
      | None => None
      end
  end.

Definition Atoi (s : string) : option Z :=
  let '(neg, digits) :=
    match s with
    | String c r =>
        if Ascii.eqb c "-" then (true, r)
        else if Ascii.eqb c "+" then (false, r)
        else (false, s)
    | EmptyString => (false, s)
    end in
  match digits with
  | EmptyString => None
  | _ =>
      match parse_digits digits 0 with
      | Some n =>
          let v := if neg then - n else n in
          if (int_min <=? v) && (v <=? int_max) then Some v else None
      | None => None
      end
  end.

(** Modelled from the spec: [inSlice] is declared outside rule.go.  The spec
    reads its two uses as membership in a closed list ("one of
    noalert|isset|isnotset|set|unset|toggle", "the recognized positional
    options"): [inSlice str l] is true exactly when [str] is an element of
    [l]. *)
Fixpoint inSlice (str : string) (l : list string) : bool :=
  match l with
  | [] => false
  | k :: r => String.eqb str k || inSlice str r
  end.

(** ** [DataPos] and the sticky-buffer table *)

(** The type [error]: [None] is [nil], [Some msg] an error with message [msg]. *)
Definition error : Type := option string.

Module DataPos.

(** [type DataPos int] *)
Abbreviation t := Z (only parsing).

Definition pktData : t := 0.
Definition fileData : t := 1.
Definition base64Data : t := 2.
Definition httpAcceptEnc : t := 3.
Definition httpAccept : t := 4.
Definition httpAcceptLang : t := 5.
Definition httpConnection : t := 6.
Definition httpContentLen : t := 7.
Definition httpContentType : t := 8.
Definition httpHeaderNames : t := 9.
Definition httpProtocol : t := 10.
Definition httpReferer : t := 11.
Definition httpRequestLine : t := 12.
Definition httpResponseLine : t := 13.
Definition httpStart : t := 14.
Definition tlsCertSubject : t := 15.
Definition tlsCertIssuer : t := 16.
Definition tlsCertSerial : t := 17.
Definition tlsCertFingerprint : t := 18.
Definition tlsSNI : t := 19.
Definition ja3Hash : t := 20.
Definition ja3String : t := 21.
Definition sshProto : t := 22.
Definition sshSoftware : t := 23.
Definition krb5Cname : t := 24.
Definition krb5Sname : t := 25.
Definition dnsQuery : t := 26.
Definition smbNamedPipe : t := 27.
Definition smbShare : t := 28.

(** The entries of the map literal [stickyBuffers], as written. *)
Definition stickyBuffers_entries : list (Z * string) :=
  [ (pktData, "pkt_data"); (fileData, "file_data"); (base64Data, "base64_data");
    (httpAcceptEnc, "http_accept_enc"); (httpAccept, "http_accept");
    (httpAcceptLang, "http_accept_lang"); (httpConnection, "http_connection");
    (httpContentLen, "http_content_len"); (httpContentType, "http_content_type");
    (httpHeaderNames, "http_header_names"); (httpProtocol, "http_protocol");
    (httpReferer, "http_referer"); (httpRequestLine, "http_request_line");
    (httpResponseLine, "http_response_line"); (httpStart, "http_start");
    (tlsCertSubject, "tls_cert_subject"); (tlsCertIssuer, "tls_cert_issuer");
    (tlsCertSerial, "tls_cert_serial"); (tlsCertFingerprint, "tls_cert_fingerprint");
    (tlsSNI, "tls_sni");
    (ja3Hash, "ja3_hash"); (ja3String, "ja3_string");
    (sshProto, "ssh_proto"); (sshSoftware, "ssh_software");
    (krb5Cname, "krb5_cname"); (krb5Sname, "krb5_sname");
    (dnsQuery, "dns_query");
    (smbNamedPipe, "smb_named_pipe"); (smbShare, "smb_share") ].

(** [var stickyBuffers = map[DataPos]string{...}] *)
Definition stickyBuffers : gmap Z string := list_to_map stickyBuffers_entries.

(** [func (d DataPos) String() string]: a map read; a missing key reads as
    the zero value of [string]. *)
Definition String (d : t) : string := default EmptyString (stickyBuffers !! d).

End DataPos.

(** The loop [for k, v := range m { if v == s { return k, nil } }] over the
    entries of a map of keywords, visited in the order [order]: the key of
    the first entry whose value is [s]. *)
Fixpoint range_find (order : list (Z * string)) (s : string) : option Z :=
  match order with
  | [] => None
  | (k, v) :: r => if String.eqb v s then Some k else range_find r s
  end.

(** [func StickyBuffer(s string) (DataPos, error)], the map visited in the
    order [order]. *)
Definition StickyBuffer (order : list (Z * string)) (s : string) : DataPos.t * error :=
  match range_find order s with
  | Some k => (k, None)
  | None => (DataPos.pktData, Some (s +:+ " is not a sticky buffer"))
  end.

(** [func isStickyBuffer(s string) bool] *)
Definition isStickyBuffer (order : list (Z * string)) (s : string) : bool :=
  match snd (StickyBuffer order s) with
  | None => true
  | Some _ => false
  end.


(** ** [byteMatcher] and the byte-matcher keyword table *)

Module byteMatcher.

(** [type byteMatcher int] *)
Abbreviation t := Z (only parsing).

Definition bUnknown : t := 0.
Definition bExtract : t := 1.
Definition bTest : t := 2.
Definition bJump : t := 3.

(** The entries of the map literal [byteMatcherVals], as written. *)
Definition byteMatcherVals_entries : list (Z * string) :=
  [ (bExtract, "byte_extract"); (bJump, "byte_jump"); (bTest, "byte_test") ].

(** [var byteMatcherVals = map[byteMatcher]string{...}] *)
Definition byteMatcherVals : gmap Z string := list_to_map byteMatcherVals_entries.

(** [func (b byteMatcher) String() string] *)
Definition String (b : t) : string := default EmptyString (byteMatcherVals !! b).

(** [func (b byteMatcher) minLen() int] *)
Definition minLen (b : t) : Z :=
  if b =? bExtract then 3
  else if b =? bJump then 2
  else if b =? bTest then 4
  else -1.

End byteMatcher.

(** [func ByteMatcher(s string) (byteMatcher, error)], the map visited in the
    order [order]. *)
Definition ByteMatcher (order : list (Z * string)) (s : string) : byteMatcher.t * error :=
  match range_find order s with
  | Some k => (k, None)
  | None => (byteMatcher.bUnknown, Some (s +:+ " is not a byte_* keyword"))
  end.

(** ** [FastPattern] *)

Module FastPattern.

Record t : Type := Build {
  Enabled : bool;
  Only : bool;
  Offset : Z;
  Length : Z
}.

(** [func (f FastPattern) String() string] *)
Definition String (f : t) : string :=
  if negb (Enabled f) then EmptyString
  else if Only f && (negb (Offset f =? 0) || negb (Length f =? 0)) then EmptyString
  else
    let s := "fast_pattern" in
    if Only f then s +:+ ":only;"
    else
      let s :=
        if negb (Offset f =? 0) && negb (Length f =? 0)
        then s +:+ (":" +:+ fmt_d (Offset f) +:+ "," +:+ fmt_d (Length f))
        else s in
      s +:+ ";".

End FastPattern.

(** ** [ContentOption], [Reference], [Metadata], [Flowbit] *)

Module ContentOption.

Record t : Type := Build {
  Name : string;
  Value : string
}.

(** [func (co ContentOption) String() string] *)
Definition String (co : t) : string :=
  if inSlice (Name co) ["byte_extract"; "depth"; "distance"; "offset"; "within"]
  then Name co +:+ ":" +:+ Value co +:+ ";"
  else Name co +:+ ";".

End ContentOption.

Module Reference.

Record t : Type := Build {
  Type_ : string;
  Value : string
}.

(** [func (r Reference) String() string] *)
Definition String (r : t) : string :=
  "reference:" +:+ Type_ r +:+ "," +:+ Value r +:+ ";".

End Reference.

Module Metadata.

Record t : Type := Build {
  Key : string;
  Value : string
}.

End Metadata.

Module Metadatas.

(** [type Metadatas []*Metadata] *)
Definition t : Type := list Metadata.t.

(** The loop of [Metadatas.String]: every pair but the last is followed by
    a comma and a space, the last one by a semicolon. *)
Fixpoint pairs (s : string) (ms : list Metadata.t) : string :=
  match ms with
  | [] => s
  | [m] => s +:+ (Metadata.Key m +:+ " " +:+ Metadata.Value m +:+ ";")
  | m :: r => pairs (s +:+ (Metadata.Key m +:+ " " +:+ Metadata.Value m +:+ ", ")) r
  end.

(** [func (ms Metadatas) String() string] *)
Definition String (ms : t) : string :=
  match ms with
  | [] => EmptyString
  | _ => pairs "metadata:" ms
  end.

End Metadatas.

Module Flowbit.

Record t : Type := Build {
  Action : string;
  Value : string
}.

(** [func (fb Flowbit) String() string] *)
Definition String (fb : t) : string :=
  if negb (inSlice (Action fb) ["noalert"; "isset"; "isnotset"; "set"; "unset"; "toggle"])
  then EmptyString
  else
    let s := "flowbits:" +:+ Action fb in
    let s := if negb (String.eqb (Value fb) EmptyString) then s +:+ ("," +:+ Value fb) else s in
    s +:+ ";".

End Flowbit.

(** ** [Network] *)

Module Network.

Record t : Type := Build {
  Nets : list string;
  Ports : list string
}.

(** The loop of [netString]: the terms, a comma after each but the last. *)
Fixpoint terms (s : string) (netPart : list string) : string :=
  match netPart with
  | [] => s
  | [n] => s +:+ n
  | n :: r => terms (s +:+ n +:+ ",") r
  end.

(** [func netString(netPart []string) string] *)
Definition netString (netPart : list string) : string :=
  let many := (1 <? Z.of_nat (length netPart)) in
  let s := if many then "[" else EmptyString in
  let s := terms s netPart in
  if many then s +:+ "]" else s.

(** [func (n Network) String() string] *)
Definition String (n : t) : string :=
  netString (Nets n) +:+ " " +:+ netString (Ports n).

End Network.

(** ** [ByteMatch] *)

Module ByteMatch.

Record t : Type := Build {
  DataPosition : DataPos.t;
  Kind : byteMatcher.t;
  Variable_ : string;
  NumBytes : Z;
  Operator : string;
  Value : Z;
  Offset : Z;
  Options : list string
}.

(** The loop over [b.Options]: a comma, then the option. *)
Definition write_option (s o : string) : string := s +:+ ("," +:+ o).

(** [func (b ByteMatch) String() string].  The source starts it with the
    note "TODO(duane): Support dataPos?": [DataPosition] is not used. *)
Definition String (b : t) : string :=
  let s := default EmptyString (byteMatcher.byteMatcherVals !! Kind b) +:+ ":" in
  let s :=
    if Kind b =? byteMatcher.bExtract then
      s +:+ (fmt_d (NumBytes b) +:+ "," +:+ fmt_d (Offset b) +:+ "," +:+ Variable_ b)
    else if Kind b =? byteMatcher.bJump then
      s +:+ (fmt_d (NumBytes b) +:+ "," +:+ fmt_d (Offset b))
    else if Kind b =? byteMatcher.bTest then
      s +:+ (fmt_d (NumBytes b) +:+ "," +:+ Operator b +:+ ","
             +:+ fmt_d (Value b) +:+ "," +:+ fmt_d (Offset b))
    else s in
  let s := fold_left write_option (Options b) s in
  s +:+ ";".

End ByteMatch.

(** ** [PCRE] *)

Module PCRE.

Record t : Type := Build {
  Pattern : list byte;
  Negate : bool;
  Options : list byte
}.

(** [bytes.Replace(pattern, []byte(`"`), []byte(`\"`), -1)]: a backslash
    before every double quote.  (When the pattern holds no double quote
    this is the pattern itself, which is what the guard with
    [bytes.IndexByte] returns.) *)
Fixpoint escape_quotes (pattern : list byte) : list byte :=
  match pattern with
  | [] => []
  | b :: r =>
      if Byte.eqb b x22 then x5c :: x22 :: escape_quotes r
      else b :: escape_quotes r
  end.

(** [func (p PCRE) String() string] *)
Definition String (p : t) : string :=
  let pattern := Pattern p in
  if (Z.of_nat (length pattern) <? 1) then EmptyString
  else
    let pattern := escape_quotes pattern in
    let s := "pcre:" in
    let s := if Negate p then s +:+ "!" else s in
    s +:+ (dquote +:+ "/" +:+ string_of_bytes pattern +:+ "/"
           +:+ string_of_bytes (Options p) +:+ dquote +:+ ";").

End PCRE.

(** ** [regexp.QuoteMeta] (Go's standard library)

    A backslash before each of the metacharacters
    [\ . + * ? ( ) | [ ] { } ^ $]; every other byte is copied. *)

Definition is_meta (c : ascii) : bool :=
  match N_of_ascii c with
  | 92%N  (* backslash *) | 46%N  (* . *) | 43%N  (* + *) | 42%N  (* * *)
  | 63%N  (* ? *) | 40%N  (* ( *) | 41%N  (* ) *) | 124%N (* | *)
  | 91%N  (* [ *) | 93%N  (* ] *) | 123%N (* { *) | 125%N (* } *)
  | 94%N  (* ^ *) | 36%N  (* $ *) => true
  | _ => false
  end.

(** The backslash. *)
Definition backslash : ascii := ascii_of_nat 92.

(** A backslash before every byte of the class [special]. *)
Fixpoint escape_class (special : ascii -> bool) (s : string) : string :=
  match s with
  | EmptyString => EmptyString
  | String c r =>
      if special c then String backslash (String c (escape_class special r))
      else String c (escape_class special r)
  end.

Definition QuoteMeta (s : string) : string := escape_class is_meta s.

(** [func escape(r string) string]: [escapeRE.ReplaceAllString(r, `\$1`)],
    which puts a backslash before every match of [escapeRE] ("escapes
    special char used in regexp").  The regular expression [escapeRE] is a
    package variable declared outside rule.go: it is a parameter here, given
    as the class of the single bytes it matches. *)
Definition escape (escapeRE : ascii -> bool) (r : string) : string :=
  escape_class escapeRE r.

(** [func within(options []*ContentOption) string]: the value of the first
    option named [within], or the empty string. *)
Fixpoint within (options : list ContentOption.t) : string :=
  match options with
  | [] => EmptyString
  | o :: r =>
      if String.eqb (ContentOption.Name o) "within" then ContentOption.Value o
      else within r
  end.

(** ** [Content] *)

Module Content.

Record t : Type := Build {
  DataPosition : DataPos.t;
  FastPattern : FastPattern.t;
  Pattern : list byte;
  Negate : bool;
  Options : list ContentOption.t
}.

(** The test of [FormatPattern] on one byte:
    [b != ' ' && (b > 126 || b < 35 || b == ':' || b == ';')]. *)
Definition hex_escaped (b : byte) : bool :=
  negb (Byte.eqb b x20)
  && ((126 <? Byte.to_N b)%N || (Byte.to_N b <? 35)%N
      || Byte.eqb b x3a || Byte.eqb b x3b).

(** One turn of the loop of [FormatPattern], on the buffer and the flag
    [pipe]. *)
Definition FormatPattern_step (st : string * bool) (b : byte) : string * bool :=
  let '(buffer, pipe) := st in
  if hex_escaped b then
    let buffer := if negb pipe then buffer +:+ "|" else buffer +:+ " " in
    (buffer +:+ fmt_02X b, true)
  else
    let buffer := if pipe then buffer +:+ "|" else buffer in
    (buffer +:+ byte_string b, false).

(** [func (c *Content) FormatPattern() string] *)
Definition FormatPattern (c : t) : string :=
  let '(buffer, pipe) := fold_left FormatPattern_step (Pattern c) (EmptyString, false) in
  if pipe then buffer +:+ "|" else buffer.

(** One turn of the loop of [ToRegexp]. *)
Definition ToRegexp_step (buffer : string) (b : byte) : string :=
  if ((126 <? Byte.to_N b)%N || (Byte.to_N b <? 32)%N) then buffer +:+ "."
  else buffer +:+ byte_string b.

(** [func (c *Content) ToRegexp() string] *)
Definition ToRegexp (c : t) : string :=
  QuoteMeta (fold_left ToRegexp_step (Pattern c) EmptyString).

(** The loop over [c.Options]: a space, then the option. *)
Definition write_option (s : string) (o : ContentOption.t) : string :=
  s +:+ (" " +:+ ContentOption.String o).

(** [func (c Content) String() string] *)
Definition String (c : t) : string :=
  let s := "content:" in
  let s := if Negate c then s +:+ "!" else s in
  let s := s +:+ (dquote +:+ FormatPattern c +:+ dquote +:+ ";") in
  let s := fold_left write_option (Options c) s in
  if FastPattern.Enabled (FastPattern c)
  then s +:+ (" " +:+ FastPattern.String (FastPattern c))
  else s.

End Content.

(** ** The ordered matchers *)

(** [type orderedMatcher interface { String() string }], by the dynamic type
    of the value: a [*Content], a [*PCRE], a [*ByteMatch], or a value of any
    other type with a [String] method, kept as the string the method
    returns. *)
Inductive orderedMatcher : Type :=
  | MContent (c : Content.t)
  | MPCRE (p : PCRE.t)
  | MByteMatch (b : ByteMatch.t)
  | MStringer (s : string).

(** The method [String] of an [orderedMatcher], by dynamic dispatch. *)
Definition orderedMatcher_String (m : orderedMatcher) : string :=
  match m with
  | MContent c => Content.String c
  | MPCRE p => PCRE.String p
  | MByteMatch b => ByteMatch.String b
  | MStringer s => s
  end.

(** ** [Rule] *)

Module Rule.

Record t : Type := Build {
  Disabled : bool;
  Action : string;
  Protocol : string;
  Source : Network.t;
  Destination : Network.t;
  Bidirectional : bool;
  SID : Z;
  Revision : Z;
  Description : string;
  References : list Reference.t;
  Contents : list Content.t;
  PCREs : list PCRE.t;
  ByteMatchers : list ByteMatch.t;
  Tags : gmap string string;
  Metas : Metadatas.t;
  Flowbits : list Flowbit.t;
  Matchers : list orderedMatcher
}.

(** One turn of the loop of [RE]. *)
Definition RE_step (escapeRE : ascii -> bool) (re : string) (c : Content.t) : string :=
  let re :=
    match Atoi (within (Content.Options c)) with
    | Some d => if 0 <? d then re +:+ (".{0," +:+ fmt_d d +:+ "}") else re +:+ ".*"
    | None => re +:+ ".*"
    end in
  re +:+ escape escapeRE (string_of_bytes (Content.Pattern c)).

(** [func (r *Rule) RE() string] *)
Definition RE (escapeRE : ascii -> bool) (r : t) : string :=
  fold_left (RE_step escapeRE) (Contents r) EmptyString.

(** [func (r *Rule) CVE() string] *)
Fixpoint CVE_loop (refs : list Reference.t) : string :=
  match refs with
  | [] => EmptyString
  | ref :: r =>
      if String.eqb (Reference.Type_ ref) "cve" then Reference.Value ref
      else CVE_loop r
  end.

Definition CVE (r : t) : string := CVE_loop (References r).

(** One turn of the loop over [r.Matchers], on the builder [s] and the
    cursor [d]: only a [*Content] is compared with the cursor. *)
Definition matcher_step (st : string * DataPos.t) (m : orderedMatcher) : string * DataPos.t :=
  let '(s, d) := st in
  let '(s, d) :=
    match m with
    | MContent c =>
        if negb (d =? Content.DataPosition c)
        then (s +:+ (" " +:+ DataPos.String (Content.DataPosition c) +:+ ";"),
              Content.DataPosition c)
        else (s, d)
    | _ => (s, d)
    end in
  (s +:+ (orderedMatcher_String m +:+ " "), d).

Definition write_tag (s : string) (kv : string * string) : string :=
  s +:+ (fst kv +:+ ":" +:+ snd kv +:+ "; ").

Definition write_flowbit (s : string) (fb : Flowbit.t) : string :=
  s +:+ (Flowbit.String fb +:+ " ").

Definition write_reference (s : string) (ref : Reference.t) : string :=
  s +:+ (Reference.String ref +:+ " ").

(** [func (r Rule) String() string], the map [r.Tags] visited in the order
    [tags]. *)
Definition String (tags : list (string * string)) (r : t) : string :=
  let s := EmptyString in
  let s := if Disabled r then s +:+ "#" else s in
  let s := s +:+ (Action r +:+ " " +:+ Protocol r +:+ " " +:+ Network.String (Source r) +:+ " ") in
  let s := if negb (Bidirectional r) then s +:+ "-> " else s +:+ "<> " in
  let s := s +:+ (Network.String (Destination r) +:+ " (msg:" +:+ dquote
                  +:+ Description r +:+ dquote +:+ "; ") in
  let s :=
    if (0 <? Z.of_nat (length (Matchers r)))
    then fst (fold_left matcher_step (Matchers r) (s, DataPos.pktData))
    else s in
  let s :=
    if (0 <? Z.of_nat (length (Metas r)))
    then s +:+ (Metadatas.String (Metas r) +:+ " ")
    else s in
  let s := fold_left write_tag tags s in
  let s := fold_left write_flowbit (Flowbits r) s in
  let s := fold_left write_reference (References r) s in
  s +:+ ("sid:" +:+ fmt_d (SID r) +:+ "; rev:" +:+ fmt_d (Revision r) +:+ ";)").

(** The strings [String] may return: one for every order of the visit of
    [r.Tags]. *)
Definition String_returns (r : t) (out : string) : Prop :=
  exists tags : list (string * string),
    tags ≡ₚ map_to_list (Tags r) /\ out = String tags r.

End Rule.

(** * Descriptions the renderers are compared with *)

(** The closed set of flowbit actions. *)
Definition flowbit_actions : list string :=
  ["noalert"; "isset"; "isnotset"; "set"; "unset"; "toggle"].

(** The trailing options of a byte matcher, a comma before each. *)
Definition comma_options (opts : list string) : string :=
  concat_strings (map (fun o => "," +:+ o) opts).

(** ** The pattern encoding, by runs *)

Module Encoding.

(** The bytes the specification calls binary: outside the printable range
    35-126, or a space, a colon or a semicolon. *)
Definition binary_in_spec (b : byte) : bool :=
  (Byte.to_N b <? 35)%N || (126 <? Byte.to_N b)%N
  || Byte.eqb b x20 || Byte.eqb b x3a || Byte.eqb b x3b.

(** The bytes of the precondition of the literal-copy property: in the
    range 35-126 and none of space, colon, semicolon. *)
Definition plain_in_spec (b : byte) : bool :=
  (35 <=? Byte.to_N b)%N && (Byte.to_N b <=? 126)%N
  && negb (Byte.eqb b x20) && negb (Byte.eqb b x3a) && negb (Byte.eqb b x3b).

(** A run: one or more adjacent bytes of the same kind. *)
Record run : Type := Run {
  run_binary : bool;
  run_first : byte;
  run_rest : list byte
}.

Definition run_bytes (r : run) : list byte := run_first r :: run_rest r.

(** The maximal runs of a byte sequence, for a classification [binary] of
    the bytes: a byte joins the run that follows it when it is of the same
    kind, and starts a run otherwise. *)
Fixpoint runs (binary : byte -> bool) (bs : list byte) : list run :=
  match bs with
  | [] => []
  | b :: rest =>
      match runs binary rest with
      | [] => [Run (binary b) b []]
      | r :: rs =>
          if Bool.eqb (binary b) (run_binary r)
          then Run (run_binary r) b (run_bytes r) :: rs
          else Run (binary b) b [] :: r :: rs
      end
  end.

(** A space and two hexadecimal digits, for a byte inside a run. *)
Definition spaced_pair (b : byte) : string := " " +:+ fmt_02X b.

(** The text of a run: a binary run is one pair of [|] around the
    two-digit uppercase pairs of its bytes, single spaces between them; any
    other run is its bytes. *)
Definition run_text (r : run) : string :=
  if run_binary r
  then "|" +:+ fmt_02X (run_first r)
       +:+ concat_strings (map spaced_pair (run_rest r)) +:+ "|"
  else string_of_bytes (run_bytes r).

(** The encoding of a byte sequence: the texts of its maximal runs. *)
Definition encode (binary : byte -> bool) (bs : list byte) : string :=
  concat_strings (map run_text (runs binary bs)).

End Encoding.

(** Two adjacent runs are of different kinds. *)
Fixpoint alternating (rs : list Encoding.run) : Prop :=
  match rs with
  | r1 :: ((r2 :: _) as rest) =>
      Encoding.run_binary r1 <> Encoding.run_binary r2 /\ alternating rest
  | _ => True
  end.

(** What the loop of [FormatPattern] writes from a state with flag [pipe]
    until it returns, the closing [|] included. *)
Fixpoint FormatPattern_from (pipe : bool) (bs : list byte) : string :=
  match bs with
  | [] => if pipe then "|" else EmptyString
  | b :: rest =>
      if Content.hex_escaped b
      then (if pipe then " " else "|") +:+ fmt_02X b +:+ FormatPattern_from true rest
      else (if pipe then "|" else EmptyString) +:+ byte_string b +:+ FormatPattern_from false rest
  end.

(** What the loop writes when it meets the runs [rs] with the flag set: a
    binary run continues the open one, anything else closes it. *)
Definition resume_runs (rs : list Encoding.run) : string :=
  match rs with
  | r :: rs' =>
      if Encoding.run_binary r
      then concat_strings (map Encoding.spaced_pair (Encoding.run_bytes r)) +:+ "|"
           +:+ concat_strings (map Encoding.run_text rs')
      else "|" +:+ concat_strings (map Encoding.run_text rs)
  | [] => "|"
  end.

(** A content with the pattern [bs] and nothing else set. *)
Definition content_of (bs : list byte) : Content.t :=
  Content.Build DataPos.pktData (FastPattern.Build false false 0 0) bs false [].

(** ** The regular expression of a rule *)

(** The gap before a content: [.{0,d}] when the value of its [within]
    option parses as a positive integer [d], [.*] otherwise. *)
Definition within_gap (c : Content.t) : string :=
  match Atoi (within (Content.Options c)) with
  | Some d => if 0 <? d then ".{0," +:+ fmt_d d +:+ "}" else ".*"
  | None => ".*"
  end.

(** A pattern byte as [escape] leaves it: after a backslash when
    [escapeRE] matches it, alone otherwise. *)
Definition escaped_byte (escapeRE : ascii -> bool) (b : byte) : string :=
  if escapeRE (ascii_of_byte b) then String backslash (byte_string b) else byte_string b.

(** The regular expression of the specification: after each gap, the loose
    regular expression of the pattern ([ToRegexp]: a [.] for every byte
    outside 32-126, then the metacharacters escaped). *)
Definition RE_in_spec (r : Rule.t) : string :=
  concat_strings (map (fun c => within_gap c +:+ Content.ToRegexp c) (Rule.Contents r)).

(** ** The matchers of a rule and the sticky-buffer cursor *)

(** What a pass over the matchers emits: a buffer-selector directive, or
    the clause of a matcher. *)
Inductive emitted : Type :=
  | Directive (d : DataPos.t)
  | Clause (m : orderedMatcher).

(** The text of an emitted item, as [Rule.String] writes it. *)
Definition emitted_text (e : emitted) : string :=
  match e with
  | Directive d => " " +:+ DataPos.String d +:+ ";"
  | Clause m => orderedMatcher_String m +:+ " "
  end.

(** The pass over the matchers with the cursor [d], for a choice [tracked]
    of the matchers that are compared with the cursor (and of the position
    each one has): a tracked matcher whose position differs from the cursor
    is preceded by the directive of its position, which becomes the
    cursor. *)
Fixpoint emission (tracked : orderedMatcher -> option DataPos.t)
    (d : DataPos.t) (ms : list orderedMatcher) : list emitted :=
  match ms with
  | [] => []
  | m :: rest =>
      match tracked m with
      | Some p =>
          if d =? p then Clause m :: emission tracked d rest
          else Directive p :: Clause m :: emission tracked p rest
      | None => Clause m :: emission tracked d rest
      end
  end.

(** The matchers [Rule.String] compares with the cursor: the contents. *)
Definition tracked_content (m : orderedMatcher) : option DataPos.t :=
  match m with
  | MContent c => Some (Content.DataPosition c)
  | _ => None
  end.

(** The matchers the specification has compared with the cursor: the
    contents and the byte matchers. *)
Definition tracked_in_spec (m : orderedMatcher) : option DataPos.t :=
  match m with
  | MContent c => Some (Content.DataPosition c)
  | MByteMatch b => Some (ByteMatch.DataPosition b)
  | _ => None
  end.

(** The directives among emitted items, in order. *)
Definition directives (es : list emitted) : list DataPos.t :=
  flat_map (fun e => match e with Directive d => [d] | Clause _ => [] end) es.

(** What [Rule.String] writes before the matchers. *)
Definition Rule_header (r : Rule.t) : string :=
  (if Rule.Disabled r then "#" else EmptyString)
  +:+ Rule.Action r +:+ " " +:+ Rule.Protocol r +:+ " "
  +:+ Network.String (Rule.Source r) +:+ " "
  +:+ (if Rule.Bidirectional r then "<> " else "-> ")
  +:+ Network.String (Rule.Destination r) +:+ " (msg:" +:+ dquote
  +:+ Rule.Description r +:+ dquote +:+ "; ".

(** What [Rule.String] writes after the matchers, the tags in the order
    [tags]. *)
Definition Rule_trailer (tags : list (string * string)) (r : Rule.t) : string :=
  (match Rule.Metas r with
   | [] => EmptyString
   | _ => Metadatas.String (Rule.Metas r) +:+ " "
   end)
  +:+ concat_strings (map (fun kv => fst kv +:+ ":" +:+ snd kv +:+ "; ") tags)
  +:+ concat_strings (map (fun fb => Flowbit.String fb +:+ " ") (Rule.Flowbits r))
  +:+ concat_strings (map (fun ref => Reference.String ref +:+ " ") (Rule.References r))
  +:+ "sid:" +:+ fmt_d (Rule.SID r) +:+ "; rev:" +:+ fmt_d (Rule.Revision r) +:+ ";)".

(** The rendering the specification describes: the directives before the
    contents and before the byte matchers. *)
Definition String_in_spec (tags : list (string * string)) (r : Rule.t) : string :=
  Rule_header r
  +:+ concat_strings (map emitted_text (emission tracked_in_spec DataPos.pktData (Rule.Matchers r)))
  +:+ Rule_trailer tags r.

(** A rule [alert tcp any any -> any any] with the matchers [ms] and
    nothing else set. *)
Definition rule_of (ms : list orderedMatcher) : Rule.t :=
  let any := Network.Build ["any"] ["any"] in
  Rule.Build false "alert" "tcp" any any false 0 0 EmptyString
    [] [] [] [] ∅ [] [] ms.

(** A rule with the contents [cs] and nothing else set. *)
Definition rule_of_contents (cs : list Content.t) : Rule.t :=
  let any := Network.Build ["any"] ["any"] in
  Rule.Build false "alert" "tcp" any any false 0 0 EmptyString
    [] cs [] [] ∅ [] [] [].

(** * More of rule.go *)

(** [func allByteMatcherNames() []string], the map [byteMatcherVals] visited
    in the order [order]: a slice of [len(byteMatcherVals)] empty strings is
    filled from index 0, one keyword per entry visited.  (A write [b[i] = n]
    past the end of the slice would panic; the visit has as many entries as
    the slice has cells, so [i] stays in range, and the statements about
    this function are made for such visits.) *)
Definition allByteMatcherNames_step (st : list string * nat) (kv : Z * string)
  : list string * nat :=
  let '(b, i) := st in (<[i := snd kv]> b, S i).

Definition allByteMatcherNames (order : list (Z * string)) : list string :=
  fst (fold_left allByteMatcherNames_step order
         (replicate (size byteMatcher.byteMatcherVals) EmptyString, 0%nat)).

(** ** Predicates used in the statements *)

(** Every byte of a string satisfies [p]. *)
Fixpoint all_bytes (p : ascii -> bool) (s : string) : bool :=
  match s with
  | EmptyString => true
  | String c r => p c && all_bytes p r
  end.

(** The bytes an encoded pattern is made of: the space, and the bytes
    35-126 but the colon and the semicolon. *)
Definition pattern_alphabet (a : ascii) : bool :=
  let n := N_of_ascii a in
  (n =? 32)%N || ((35 <=? n)%N && (n <=? 126)%N && negb (n =? 58)%N && negb (n =? 59)%N).

(** The printable bytes, 32-126. *)
Definition printable (a : ascii) : bool :=
  let n := N_of_ascii a in (32 <=? n)%N && (n <=? 126)%N.

(** Every double quote of [l] comes right after a backslash; [guarded]
    tells whether the byte before [l] is a backslash. *)
Fixpoint quotes_guarded (guarded : bool) (l : list byte) : bool :=
  match l with
  | [] => true
  | b :: r => (if Byte.eqb b x22 then guarded else true) && quotes_guarded (Byte.eqb b x5c) r
  end.

(** No two adjacent elements are equal. *)
Fixpoint stutter_free (l : list Z) : Prop :=
  match l with
  | x :: ((y :: _) as r) => x <> y /\ stutter_free r
  | _ => True
  end.

(** The matchers that are contents. *)
Definition is_content (m : orderedMatcher) : bool :=
  match m with
  | MContent _ => true
  | _ => false
  end.

(** The positions of the contents among the matchers, in order. *)
Definition content_positions (ms : list orderedMatcher) : list DataPos.t :=
  omap tracked_content ms.

(** The rule [r] with the flag [Disabled] set to [b]. *)
Definition with_Disabled (b : bool) (r : Rule.t) : Rule.t :=
  Rule.Build b (Rule.Action r) (Rule.Protocol r) (Rule.Source r) (Rule.Destination r)
    (Rule.Bidirectional r) (Rule.SID r) (Rule.Revision r) (Rule.Description r)
    (Rule.References r) (Rule.Contents r) (Rule.PCREs r) (Rule.ByteMatchers r)
    (Rule.Tags r) (Rule.Metas r) (Rule.Flowbits r) (Rule.Matchers r).

(** The four bytes [|XX|], [XX] the two hexadecimal digits of [b]. *)
Definition piped_hex_bytes (b : byte) : list byte :=
  x7c :: list_byte_of_string (fmt_02X b) ++ [x7c].

(** The text of a metadata pair: key, space, value. *)
Definition metadata_pair (m : Metadata.t) : string :=
  Metadata.Key m +:+ " " +:+ Metadata.Value m.

(** What [ToRegexp] writes for one byte before the escaping: a [.] for a
    byte above 126 or below 32, the byte otherwise. *)
Definition loose_byte (b : byte) : string :=
  if ((126 <? Byte.to_N b)%N || (Byte.to_N b <? 32)%N) then "." else byte_string b.

(** The text of a tag, as [Rule.String] writes it. *)
Definition tag_text (kv : string * string) : string :=
  fst kv +:+ ":" +:+ snd kv +:+ "; ".

(** A rule with the tags [tags] and nothing else set. *)
Definition rule_of_tags (tags : gmap string string) : Rule.t :=
  let any := Network.Build ["any"] ["any"] in
  Rule.Build false "alert" "tcp" any any false 0 0 EmptyString
    [] [] [] [] tags [] [] [].

(** The content [c] with its fast pattern switched off. *)
Definition without_fast_pattern (c : Content.t) : Content.t :=
  Content.Build (Content.DataPosition c) (FastPattern.Build false false 0 0)
    (Content.Pattern c) (Content.Negate c) (Content.Options c).

(** The option names that [ContentOption.String] writes with a value. *)
Definition valued_options : list string :=
  ["byte_extract"; "depth"; "distance"; "offset"; "within"].

(** The terms joined by commas, in brackets when there are two or more. *)
Definition bracketed_join (l : list string) : string :=
  match l with
  | _ :: _ :: _ => "[" +:+ String.concat "," l +:+ "]"
  | _ => String.concat "," l
  end.

(** * Properties *)

(** ** Facts about strings and writers *)

Lemma sapp_String (c : ascii) (s t : string) : String c s +:+ t = String c (s +:+ t).
Proof. reflexivity. Qed.

Lemma sapp_nil_l (s : string) : EmptyString +:+ s = s.
Proof. reflexivity. Qed.

Lemma sapp_nil_r (s : string) : s +:+ EmptyString = s.
Proof. induction s as [|c s IH]; [reflexivity|]. rewrite sapp_String, IH. reflexivity. Qed.

Lemma sapp_assoc (s t u : string) : (s +:+ t) +:+ u = s +:+ (t +:+ u).
Proof.
  induction s as [|c s IH]; [reflexivity|].
  rewrite !sapp_String, IH. reflexivity.
Qed.

Create Rewrite HintDb sapp.
#[global] Hint Rewrite sapp_assoc sapp_nil_r sapp_nil_l sapp_String : sapp.

Ltac sapp_norm := autorewrite with sapp.

Lemma has_byte_app (a : ascii) (s t : string) :
  has_byte a (s +:+ t) = has_byte a s || has_byte a t.
Proof.
  induction s as [|c s IH]; [reflexivity|].
  rewrite sapp_String. simpl. rewrite IH. apply orb_assoc.
Qed.

(** A loop that only writes to a builder writes the concatenation of what
    each turn writes. *)
Lemma fold_left_writer {A : Type} (f : string -> A -> string) (w : A -> string) :
  (forall s x, f s x = s +:+ w x) ->
  forall (l : list A) (s : string),
    fold_left f l s = s +:+ concat_strings (map w l).
Proof.
  intros Hf l. induction l as [|x l IH]; intros s; simpl.
  - now rewrite sapp_nil_r.
  - rewrite IH, Hf, sapp_assoc. reflexivity.
Qed.

Lemma inSlice_In (str : string) (l : list string) : inSlice str l = true <-> In str l.
Proof.
  induction l as [|k l IH]; simpl.
  - split; [discriminate | tauto].
  - rewrite orb_true_iff, IH, String.eqb_eq. split; intros [H|H]; auto.
Qed.

Lemma inSlice_not_In (str : string) (l : list string) : inSlice str l = false <-> ~ In str l.
Proof.
  rewrite <- inSlice_In. destruct (inSlice str l); split; congruence.
Qed.

(** ** The keyword tables *)

Lemma range_find_Some (order : list (Z * string)) (k : Z) (s : string) :
  NoDup (order.*2) -> (k, s) ∈ order -> range_find order s = Some k.
Proof.
  induction order as [|[k' v] order IH]; intros Hnd Hin.
  - inversion Hin.
  - rewrite fmap_cons in Hnd. apply NoDup_cons in Hnd as [Hv Hnd].
    simpl. destruct (String.eqb_spec v s) as [->|Hne].
    + apply elem_of_cons in Hin as [Heq|Hin]; [congruence|].
      exfalso. apply Hv. apply list_elem_of_fmap. exists (k, s). auto.
    + apply elem_of_cons in Hin as [Heq|Hin]; [congruence|]. auto.
Qed.

Lemma range_find_None (order : list (Z * string)) (s : string) :
  (forall k, (k, s) ∉ order) -> range_find order s = None.
Proof.
  induction order as [|[k' v] order IH]; intros Hout; [reflexivity|].
  simpl. destruct (String.eqb_spec v s) as [->|Hne].
  - exfalso. apply (Hout k'). left.
  - apply IH. intros k Hin. apply (Hout k). now right.
Qed.

(** What a visit of a keyword table in any order finds. *)
Section TableLookup.

Variable entries : list (Z * string).
Hypothesis keys_distinct : NoDup (entries.*1).
Hypothesis values_distinct : NoDup (entries.*2).

Let table : gmap Z string := list_to_map entries.

Lemma visit_perm (order : list (Z * string)) :
  order ≡ₚ map_to_list table -> order ≡ₚ entries.
Proof. intros ->. now apply map_to_list_to_map. Qed.

Lemma visit_finds (order : list (Z * string)) (k : Z) (s : string) :
  order ≡ₚ map_to_list table -> table !! k = Some s ->
  range_find order s = Some k.
Proof.
  intros Hp Hk. apply range_find_Some.
  - rewrite (visit_perm order Hp). exact values_distinct.
  - rewrite Hp. now apply elem_of_map_to_list.
Qed.

Lemma visit_misses (order : list (Z * string)) (s : string) :
  order ≡ₚ map_to_list table -> (forall k, table !! k <> Some s) ->
  range_find order s = None.
Proof.
  intros Hp Hout. apply range_find_None. intros k Hin.
  rewrite Hp in Hin. apply elem_of_map_to_list in Hin. now apply (Hout k).
Qed.

Lemma table_no_value (s : string) :
  s ∉ entries.*2 -> forall k, table !! k <> Some s.
Proof.
  intros Hs k Hk. apply Hs. apply elem_of_list_to_map_2 in Hk.
  apply list_elem_of_fmap. exists (k, s). auto.
Qed.

End TableLookup.

Lemma stickyBuffers_keys : NoDup (DataPos.stickyBuffers_entries.*1).
Proof. compute_done. Qed.

Lemma stickyBuffers_values : NoDup (DataPos.stickyBuffers_entries.*2).
Proof. compute_done. Qed.

Lemma byteMatcherVals_keys : NoDup (byteMatcher.byteMatcherVals_entries.*1).
Proof. compute_done. Qed.

Lemma byteMatcherVals_values : NoDup (byteMatcher.byteMatcherVals_entries.*2).
Proof. compute_done. Qed.

Lemma contains_prefix (s t : string) : contains (s +:+ t) s.
Proof. exists EmptyString, t. reflexivity. Qed.

(** C6: a keyword that is no value of the sticky-buffer table makes
    [StickyBuffer] return an error whose message is the keyword followed by
    " is not a sticky buffer" (so it contains the keyword), and likewise
    [ByteMatcher] with " is not a byte_* keyword"; a keyword of a table is
    mapped to its enumeration value with a nil error, in whatever order the
    map is visited; and the [String] method of an enumeration value of a
    table returns its keyword. *)
Theorem keyword_lookup_contract :
  (forall (order : list (Z * string)) (s : string),
      order ≡ₚ map_to_list DataPos.stickyBuffers ->
      (forall k, DataPos.stickyBuffers !! k <> Some s) ->
      exists msg : string,
        StickyBuffer order s = (DataPos.pktData, Some msg)
        /\ msg = s +:+ " is not a sticky buffer" /\ contains msg s)
  /\ (forall (order : list (Z * string)) (s : string),
      order ≡ₚ map_to_list byteMatcher.byteMatcherVals ->
      (forall k, byteMatcher.byteMatcherVals !! k <> Some s) ->
      exists msg : string,
        ByteMatcher order s = (byteMatcher.bUnknown, Some msg)
        /\ msg = s +:+ " is not a byte_* keyword" /\ contains msg s)
  /\ (forall (order : list (Z * string)) (k : Z) (s : string),
      order ≡ₚ map_to_list DataPos.stickyBuffers ->
      DataPos.stickyBuffers !! k = Some s ->
      StickyBuffer order s = (k, None))
  /\ (forall (order : list (Z * string)) (k : Z) (s : string),
      order ≡ₚ map_to_list byteMatcher.byteMatcherVals ->
      byteMatcher.byteMatcherVals !! k = Some s ->
      ByteMatcher order s = (k, None))
  /\ (forall (d : DataPos.t) (s : string),
      DataPos.stickyBuffers !! d = Some s -> DataPos.String d = s)
  /\ (forall (b : byteMatcher.t) (s : string),
      byteMatcher.byteMatcherVals !! b = Some s -> byteMatcher.String b = s).
Proof.
  split; [|split; [|split; [|split; [|split]]]].
  - intros order s Hp Hout. exists (s +:+ " is not a sticky buffer").
    unfold StickyBuffer.
    rewrite (visit_misses DataPos.stickyBuffers_entries order s Hp Hout).
    auto using contains_prefix.
  - intros order s Hp Hout. exists (s +:+ " is not a byte_* keyword").
    unfold ByteMatcher.
    rewrite (visit_misses byteMatcher.byteMatcherVals_entries order s Hp Hout).
    auto using contains_prefix.
  - intros order k s Hp Hk. unfold StickyBuffer.
    now rewrite (visit_finds _ stickyBuffers_keys stickyBuffers_values order k s Hp Hk).
  - intros order k s Hp Hk. unfold ByteMatcher.
    now rewrite (visit_finds _ byteMatcherVals_keys byteMatcherVals_values order k s Hp Hk).
  - intros d s Hd. unfold DataPos.String. now rewrite Hd.
  - intros b s Hb. unfold byteMatcher.String. now rewrite Hb.
Qed.

Lemma keyword_lookup_contract_witness :
  (exists msg : string,
      StickyBuffer (map_to_list DataPos.stickyBuffers) "http_uri" = (DataPos.pktData, Some msg)
      /\ msg = "http_uri is not a sticky buffer" /\ contains msg "http_uri")
  /\ (exists msg : string,
      ByteMatcher (map_to_list byteMatcher.byteMatcherVals) "byte_math" = (byteMatcher.bUnknown, Some msg)
      /\ msg = "byte_math is not a byte_* keyword" /\ contains msg "byte_math")
  /\ StickyBuffer (map_to_list DataPos.stickyBuffers) "tls_sni" = (DataPos.tlsSNI, None)
  /\ ByteMatcher (map_to_list byteMatcher.byteMatcherVals) "byte_jump" = (byteMatcher.bJump, None)
  /\ DataPos.String DataPos.fileData = "file_data"
  /\ byteMatcher.String byteMatcher.bTest = "byte_test".
Proof.
  destruct keyword_lookup_contract as (H1 & H2 & H3 & H4 & H5 & H6).
  split; [|split; [|split; [|split; [|split]]]].
  - apply (H1 (map_to_list DataPos.stickyBuffers) "http_uri"); [reflexivity|].
    apply table_no_value. compute_done.
  - apply (H2 (map_to_list byteMatcher.byteMatcherVals) "byte_math"); [reflexivity|].
    apply table_no_value. compute_done.
  - apply H3; [reflexivity | compute_done].
  - apply H4; [reflexivity | compute_done].
  - apply H5. compute_done.
  - apply H6. compute_done.
Defined.

(** The keys of the sticky-buffer table are the 29 declared constants. *)
Lemma stickyBuffers_key_range : DataPos.stickyBuffers_entries.*1 = seqZ 0 29.
Proof. vm_compute. reflexivity. Qed.

(** C10: a [DataPos] outside the sticky-buffer table, such as any integer
    below the first or beyond the last declared constant, is rendered by
    [DataPos.String] as the empty string. *)
Theorem DataPos_String_outside_table :
  (forall d : DataPos.t, DataPos.stickyBuffers !! d = None -> DataPos.String d = EmptyString)
  /\ (forall d : DataPos.t, d < DataPos.pktData \/ DataPos.smbShare < d ->
      DataPos.stickyBuffers !! d = None /\ DataPos.String d = EmptyString).
Proof.
  assert (Hnone : forall d, DataPos.stickyBuffers !! d = None -> DataPos.String d = EmptyString).
  { intros d Hd. unfold DataPos.String. now rewrite Hd. }
  split; [exact Hnone|]. intros d Hd.
  assert (Hlook : DataPos.stickyBuffers !! d = None).
  { apply not_elem_of_list_to_map_1. rewrite stickyBuffers_key_range, elem_of_seqZ.
    unfold DataPos.pktData, DataPos.smbShare in Hd. lia. }
  split; [exact Hlook | now apply Hnone].
Qed.

Lemma DataPos_String_outside_table_witness :
  DataPos.stickyBuffers !! 29 = None /\ DataPos.String 29 = EmptyString.
Proof.
  apply (proj2 DataPos_String_outside_table 29). right. unfold DataPos.smbShare. lia.
Defined.

(** C7: [FastPattern.String] returns the empty string when [Enabled] is
    false, and when [Only] is set together with a non-zero [Offset] or a
    non-zero [Length]; with [Enabled] and [Only] set and both numbers zero it
    returns "fast_pattern:only;".  The method returns a string in every
    case: it has no error result. *)
Theorem FastPattern_String_silent_empty :
  (forall f : FastPattern.t,
      FastPattern.Enabled f = false -> FastPattern.String f = EmptyString)
  /\ (forall f : FastPattern.t,
      FastPattern.Only f = true ->
      FastPattern.Offset f <> 0 \/ FastPattern.Length f <> 0 ->
      FastPattern.String f = EmptyString)
  /\ (forall f : FastPattern.t,
      FastPattern.Enabled f = true -> FastPattern.Only f = true ->
      FastPattern.Offset f = 0 -> FastPattern.Length f = 0 ->
      FastPattern.String f = "fast_pattern:only;").
Proof.
  split; [|split].
  - intros f He. unfold FastPattern.String. now rewrite He.
  - intros f Ho Hne. unfold FastPattern.String. rewrite Ho.
    destruct (FastPattern.Enabled f); [|reflexivity]. simpl.
    destruct (Z.eqb_spec (FastPattern.Offset f) 0), (Z.eqb_spec (FastPattern.Length f) 0);
      simpl; try reflexivity. lia.
  - intros f He Ho Hoff Hlen. unfold FastPattern.String.
    rewrite He, Ho, Hoff, Hlen. reflexivity.
Qed.

Lemma FastPattern_String_silent_empty_witness :
  FastPattern.String (FastPattern.Build false true 3 4) = EmptyString
  /\ FastPattern.String (FastPattern.Build true true 1 0) = EmptyString
  /\ FastPattern.String (FastPattern.Build true true 0 0) = "fast_pattern:only;".
Proof.
  destruct FastPattern_String_silent_empty as (H1 & H2 & H3).
  split; [|split].
  - apply H1. reflexivity.
  - apply H2; [reflexivity | left; simpl; lia].
  - apply H3; reflexivity.
Defined.

(** C9: with [Enabled] set, [Only] clear and exactly one of [Offset] and
    [Length] non-zero, [FastPattern.String] returns "fast_pattern;": the
    numbers are written only when both are non-zero. *)
Theorem FastPattern_String_one_sided_chop (f : FastPattern.t) :
  FastPattern.Enabled f = true ->
  FastPattern.Only f = false ->
  (FastPattern.Offset f <> 0 /\ FastPattern.Length f = 0)
  \/ (FastPattern.Offset f = 0 /\ FastPattern.Length f <> 0) ->
  FastPattern.String f = "fast_pattern;".
Proof.
  intros He Ho Hone. unfold FastPattern.String. rewrite He, Ho. simpl.
  destruct (Z.eqb_spec (FastPattern.Offset f) 0), (Z.eqb_spec (FastPattern.Length f) 0);
    simpl; try reflexivity; lia.
Qed.

Lemma FastPattern_String_one_sided_chop_witness :
  FastPattern.String (FastPattern.Build true false 7 0) = "fast_pattern;"
  /\ FastPattern.String (FastPattern.Build true false 0 7) = "fast_pattern;".
Proof.
  split.
  - apply (FastPattern_String_one_sided_chop (FastPattern.Build true false 7 0));
      [reflexivity | reflexivity | left; simpl; lia].
  - apply (FastPattern_String_one_sided_chop (FastPattern.Build true false 0 7));
      [reflexivity | reflexivity | right; simpl; lia].
Defined.

(** C8: [Flowbit.String] returns the empty string for every [Action]
    outside noalert, isset, isnotset, set, unset, toggle; for an [Action] of
    that set and a non-empty [Value] it returns
    "flowbits:<action>,<value>;".  So [Flowbit{Action:"isset", Value:"x"}]
    renders "flowbits:isset,x;" and [Flowbit{Action:"bogus"}] renders the
    empty string. *)
Theorem Flowbit_String_closed_actions :
  (forall fb : Flowbit.t,
      ~ In (Flowbit.Action fb) flowbit_actions -> Flowbit.String fb = EmptyString)
  /\ (forall fb : Flowbit.t,
      In (Flowbit.Action fb) flowbit_actions -> Flowbit.Value fb <> EmptyString ->
      Flowbit.String fb
      = "flowbits:" +:+ Flowbit.Action fb +:+ "," +:+ Flowbit.Value fb +:+ ";")
  /\ Flowbit.String (Flowbit.Build "isset" "x") = "flowbits:isset,x;"
  /\ Flowbit.String (Flowbit.Build "bogus" EmptyString) = EmptyString.
Proof.
  split; [|split; [|split]]; try reflexivity.
  - intros fb Hout. apply inSlice_not_In in Hout. unfold Flowbit.String.
    fold flowbit_actions. now rewrite Hout.
  - intros fb Hin Hval. apply inSlice_In in Hin. unfold Flowbit.String.
    fold flowbit_actions. rewrite Hin. apply String.eqb_neq in Hval. rewrite Hval.
    simpl. now sapp_norm.
Qed.

Lemma Flowbit_String_closed_actions_witness :
  Flowbit.String (Flowbit.Build "drop" "x") = EmptyString
  /\ Flowbit.String (Flowbit.Build "toggle" "seen") = "flowbits:toggle,seen;".
Proof.
  destruct Flowbit_String_closed_actions as (H1 & H2 & _).
  split.
  - apply H1. apply inSlice_not_In. reflexivity.
  - apply (H2 (Flowbit.Build "toggle" "seen")); [apply inSlice_In; reflexivity | discriminate].
Defined.

Lemma byteMatcherVals_keywords :
  byteMatcher.byteMatcherVals !! byteMatcher.bExtract = Some "byte_extract"
  /\ byteMatcher.byteMatcherVals !! byteMatcher.bJump = Some "byte_jump"
  /\ byteMatcher.byteMatcherVals !! byteMatcher.bTest = Some "byte_test".
Proof. repeat split; vm_compute; reflexivity. Qed.

(** C5: [ByteMatch.String] writes the keyword of the kind and a colon, then
    the arguments in the order of the kind (extract: numBytes, offset,
    variable; jump: numBytes, offset; test: numBytes, operator, value,
    offset), then every option of [Options] in order, each after a comma,
    then a semicolon.  [ByteMatch{Kind: test, NumBytes: 4, Operator: ">",
    Value: 100, Offset: 0}] renders "byte_test:4,>,100,0;". *)
Theorem ByteMatch_String_argument_order :
  (forall b : ByteMatch.t,
      ByteMatch.Kind b = byteMatcher.bExtract ->
      ByteMatch.String b
      = "byte_extract:" +:+ fmt_d (ByteMatch.NumBytes b) +:+ "," +:+ fmt_d (ByteMatch.Offset b)
        +:+ "," +:+ ByteMatch.Variable_ b
        +:+ comma_options (ByteMatch.Options b) +:+ ";")
  /\ (forall b : ByteMatch.t,
      ByteMatch.Kind b = byteMatcher.bJump ->
      ByteMatch.String b
      = "byte_jump:" +:+ fmt_d (ByteMatch.NumBytes b) +:+ "," +:+ fmt_d (ByteMatch.Offset b)
        +:+ comma_options (ByteMatch.Options b) +:+ ";")
  /\ (forall b : ByteMatch.t,
      ByteMatch.Kind b = byteMatcher.bTest ->
      ByteMatch.String b
      = "byte_test:" +:+ fmt_d (ByteMatch.NumBytes b) +:+ "," +:+ ByteMatch.Operator b
        +:+ "," +:+ fmt_d (ByteMatch.Value b) +:+ "," +:+ fmt_d (ByteMatch.Offset b)
        +:+ comma_options (ByteMatch.Options b) +:+ ";")
  /\ ByteMatch.String
       (ByteMatch.Build DataPos.pktData byteMatcher.bTest EmptyString 4 ">" 100 0 [])
     = "byte_test:4,>,100,0;".
Proof.
  destruct byteMatcherVals_keywords as (He & Hj & Ht).
  assert (Hw : forall l s, fold_left ByteMatch.write_option l s = s +:+ comma_options l).
  { intros l s. apply (fold_left_writer ByteMatch.write_option (fun o => "," +:+ o)).
    reflexivity. }
  split; [|split; [|split]]; try reflexivity.
  - intros b Hk. unfold ByteMatch.String. rewrite Hk, He, Hw. simpl. now sapp_norm.
  - intros b Hk. unfold ByteMatch.String. rewrite Hk, Hj, Hw. simpl. now sapp_norm.
  - intros b Hk. unfold ByteMatch.String. rewrite Hk, Ht, Hw. simpl. now sapp_norm.
Qed.

Lemma ByteMatch_String_argument_order_witness :
  ByteMatch.String
    (ByteMatch.Build DataPos.fileData byteMatcher.bExtract "len" 2 EmptyString 0 (-1)
       ["relative"; "little"])
  = "byte_extract:2,-1,len,relative,little;"
  /\ ByteMatch.String
       (ByteMatch.Build DataPos.pktData byteMatcher.bJump EmptyString 4 EmptyString 0 12
          ["align"])
     = "byte_jump:4,12,align;"
  /\ ByteMatch.String
       (ByteMatch.Build DataPos.pktData byteMatcher.bTest EmptyString 1 "&" 128 3 [])
     = "byte_test:1,&,128,3;".
Proof.
  destruct ByteMatch_String_argument_order as (H1 & H2 & H3 & _).
  split; [|split].
  - apply (H1 (ByteMatch.Build DataPos.fileData byteMatcher.bExtract "len" 2 EmptyString 0 (-1)
                 ["relative"; "little"])). reflexivity.
  - apply (H2 (ByteMatch.Build DataPos.pktData byteMatcher.bJump EmptyString 4 EmptyString 0 12
                 ["align"])). reflexivity.
  - apply (H3 (ByteMatch.Build DataPos.pktData byteMatcher.bTest EmptyString 1 "&" 128 3 [])).
    reflexivity.
Defined.

(** ** The pattern encoder *)

Lemma string_of_bytes_cons (b : byte) (bs : list byte) :
  string_of_bytes (b :: bs) = byte_string b +:+ string_of_bytes bs.
Proof. reflexivity. Qed.

Lemma string_of_bytes_app (l1 l2 : list byte) :
  string_of_bytes (l1 ++ l2) = string_of_bytes l1 +:+ string_of_bytes l2.
Proof.
  induction l1 as [|b l1 IH]; [reflexivity|].
  rewrite <- app_comm_cons, !string_of_bytes_cons, IH. now sapp_norm.
Qed.

(** The loop, started on any buffer, writes [FormatPattern_from]. *)
Lemma FormatPattern_loop (bs : list byte) (buffer : string) (pipe : bool) :
  (let '(buffer', pipe') := fold_left Content.FormatPattern_step bs (buffer, pipe) in
   if pipe' then buffer' +:+ "|" else buffer')
  = buffer +:+ FormatPattern_from pipe bs.
Proof.
  revert buffer pipe. induction bs as [|b bs IH]; intros buffer pipe.
  - simpl. destruct pipe; now sapp_norm.
  - cbn [fold_left FormatPattern_from].
    assert (Hstep : Content.FormatPattern_step (buffer, pipe) b
                    = if Content.hex_escaped b
                      then ((if negb pipe then buffer +:+ "|" else buffer +:+ " ")
                            +:+ fmt_02X b, true)
                      else ((if pipe then buffer +:+ "|" else buffer)
                            +:+ byte_string b, false)) by reflexivity.
    rewrite Hstep. clear Hstep.
    destruct (Content.hex_escaped b), pipe; cbn [negb]; rewrite IH; now sapp_norm.
Qed.

Lemma FormatPattern_unfold (c : Content.t) :
  Content.FormatPattern c = FormatPattern_from false (Content.Pattern c).
Proof.
  unfold Content.FormatPattern.
  exact (FormatPattern_loop (Content.Pattern c) EmptyString false).
Qed.

(** The runs are made of the bytes of the sequence, in order. *)
Lemma runs_cover (binary : byte -> bool) (bs : list byte) :
  flat_map Encoding.run_bytes (Encoding.runs binary bs) = bs.
Proof.
  induction bs as [|b bs IH]; [reflexivity|].
  simpl. destruct (Encoding.runs binary bs) as [|r rs].
  - simpl in *. now subst.
  - destruct (Bool.eqb (binary b) (Encoding.run_binary r)); simpl in *; now rewrite IH.
Qed.

(** Every byte of a run is of the kind of the run. *)
Lemma runs_classified (binary : byte -> bool) (bs : list byte) :
  Forall (fun r => Forall (fun b => binary b = Encoding.run_binary r) (Encoding.run_bytes r))
         (Encoding.runs binary bs).
Proof.
  induction bs as [|b bs IH]; [constructor|].
  simpl. destruct (Encoding.runs binary bs) as [|r rs].
  - repeat constructor.
  - inversion IH as [|? ? Hr Hrs]; subst.
    destruct (Bool.eqb (binary b) (Encoding.run_binary r)) eqn:E.
    + apply Bool.eqb_prop in E. constructor; [|exact Hrs].
      constructor; [exact E | exact Hr].
    + constructor; [repeat constructor | exact IH].
Qed.

(** The runs are maximal. *)
Lemma runs_maximal (binary : byte -> bool) (bs : list byte) :
  alternating (Encoding.runs binary bs).
Proof.
  induction bs as [|b bs IH]; [exact I|].
  simpl. destruct (Encoding.runs binary bs) as [|r rs]; [exact I|].
  destruct (Bool.eqb (binary b) (Encoding.run_binary r)) eqn:E.
  - destruct rs as [|r' rs]; [exact I|]. exact IH.
  - split; [|exact IH]. simpl. intros Heq. rewrite Heq in E.
    now rewrite Bool.eqb_reflx in E.
Qed.

Lemma FormatPattern_from_runs (bs : list byte) :
  FormatPattern_from false bs = Encoding.encode Content.hex_escaped bs
  /\ FormatPattern_from true bs = resume_runs (Encoding.runs Content.hex_escaped bs).
Proof.
  unfold Encoding.encode. induction bs as [|b bs [IHf IHt]]; [split; reflexivity|].
  simpl FormatPattern_from. simpl Encoding.runs. rewrite IHf, IHt. clear IHf IHt.
  destruct (Encoding.runs Content.hex_escaped bs) as [|r rs].
  - destruct (Content.hex_escaped b); split; cbn; now sapp_norm.
  - destruct r as [k b' tl].
    destruct (Content.hex_escaped b), k; split; cbn;
      unfold Encoding.run_text, Encoding.spaced_pair; cbn; now sapp_norm.
Qed.

Lemma Byte_eqb_eq (x y : byte) : Byte.eqb x y = true <-> x = y.
Proof. split; [apply byte_dec_bl | apply byte_dec_lb]. Qed.

Lemma Byte_eqb_neq (x y : byte) : Byte.eqb x y = false <-> x <> y.
Proof.
  rewrite <- Byte_eqb_eq. destruct (Byte.eqb x y); split; congruence.
Qed.

(** The test of [FormatPattern], read as a proposition. *)
Lemma hex_escaped_iff (b : byte) :
  Content.hex_escaped b = true
  <-> b <> x20
      /\ ((126 < Byte.to_N b)%N \/ (Byte.to_N b < 35)%N \/ b = x3a \/ b = x3b).
Proof.
  unfold Content.hex_escaped.
  rewrite andb_true_iff, negb_true_iff, !orb_true_iff, !N.ltb_lt,
    !Byte_eqb_eq, Byte_eqb_neq.
  tauto.
Qed.

(** Off the space, the test of [FormatPattern] is the specification's
    notion of a binary byte. *)
Lemma hex_escaped_binary_in_spec (b : byte) :
  b <> x20 -> Content.hex_escaped b = Encoding.binary_in_spec b.
Proof.
  intros Hb. apply Byte_eqb_neq in Hb.
  unfold Content.hex_escaped, Encoding.binary_in_spec. rewrite Hb. simpl.
  destruct (126 <? Byte.to_N b)%N, (Byte.to_N b <? 35)%N; reflexivity.
Qed.

Lemma plain_not_hex_escaped (b : byte) :
  Encoding.plain_in_spec b = true -> Content.hex_escaped b = false.
Proof.
  unfold Encoding.plain_in_spec, Content.hex_escaped.
  rewrite !andb_true_iff, !negb_true_iff, !N.leb_le.
  intros [[[[Hlo Hhi] Hsp] Hco] Hse]. rewrite Hsp, Hco, Hse. simpl.
  destruct (N.ltb_spec 126 (Byte.to_N b)), (N.ltb_spec (Byte.to_N b) 35);
    simpl; try reflexivity; lia.
Qed.

(** Bytes that are not escaped are copied. *)
Lemma FormatPattern_from_literal (pipe : bool) (lit rest : list byte) :
  forallb (fun b => negb (Content.hex_escaped b)) lit = true ->
  lit <> [] ->
  FormatPattern_from pipe (lit ++ rest)
  = (if pipe then "|" else EmptyString) +:+ string_of_bytes lit
    +:+ FormatPattern_from false rest.
Proof.
  revert pipe. induction lit as [|b lit IH]; intros pipe Hlit Hne; [congruence|].
  simpl in Hlit. apply andb_true_iff in Hlit as [Hb Hlit].
  apply negb_true_iff in Hb.
  rewrite <- app_comm_cons. simpl FormatPattern_from. rewrite Hb.
  rewrite string_of_bytes_cons.
  destruct lit as [|b' lit].
  - simpl app. now sapp_norm.
  - rewrite (IH false Hlit) by discriminate. now sapp_norm.
Qed.

Lemma FormatPattern_from_plain (bs : list byte) :
  forallb (fun b => negb (Content.hex_escaped b)) bs = true ->
  FormatPattern_from false bs = string_of_bytes bs.
Proof.
  intros Hbs. destruct bs as [|b bs]; [reflexivity|].
  rewrite <- (app_nil_r (b :: bs)) at 1.
  rewrite (FormatPattern_from_literal false (b :: bs) [] Hbs) by discriminate.
  simpl FormatPattern_from. now sapp_norm.
Qed.

(** Escaped bytes met with the flag set continue the open run. *)
Lemma FormatPattern_from_run (run rest : list byte) :
  forallb Content.hex_escaped run = true ->
  FormatPattern_from true (run ++ rest)
  = concat_strings (map Encoding.spaced_pair run) +:+ FormatPattern_from true rest.
Proof.
  induction run as [|b run IH]; intros Hrun; [reflexivity|].
  simpl in Hrun. apply andb_true_iff in Hrun as [Hb Hrun].
  rewrite <- app_comm_cons. simpl FormatPattern_from. rewrite Hb, (IH Hrun).
  simpl. unfold Encoding.spaced_pair. now sapp_norm.
Qed.

Lemma forallb_plain_literal (bs : list byte) :
  forallb Encoding.plain_in_spec bs = true ->
  forallb (fun b => negb (Content.hex_escaped b)) bs = true.
Proof.
  rewrite !forallb_forall. intros H b Hb.
  now rewrite (plain_not_hex_escaped b (H b Hb)).
Qed.

Lemma ascii_of_byte_pipe (b : byte) :
  Ascii.eqb (ascii_of_byte b) "|" = Byte.eqb b x7c.
Proof. destruct b; reflexivity. Qed.

Lemma has_byte_pipe_bytes (bs : list byte) :
  ~ In x7c bs -> has_byte "|" (string_of_bytes bs) = false.
Proof.
  induction bs as [|b bs IH]; intros Hout; [reflexivity|].
  rewrite string_of_bytes_cons, has_byte_app. simpl in Hout.
  rewrite IH by tauto. simpl. rewrite ascii_of_byte_pipe.
  assert (Hb : b <> x7c) by (intros ->; tauto).
  apply Byte_eqb_neq in Hb. now rewrite Hb.
Qed.

(** C2 (amended): [FormatPattern] hex-escapes exactly the bytes that are
    not the space and are above 126, below 35, a colon or a semicolon, and
    copies every other byte, the space among them: its result is the
    encoding by maximal runs for that test, which off the space is the
    specification's notion of a binary byte. *)
Theorem FormatPattern_hex_escapes_exactly :
  (forall b : byte,
      Content.hex_escaped b = true
      <-> b <> x20
          /\ ((126 < Byte.to_N b)%N \/ (Byte.to_N b < 35)%N \/ b = x3a \/ b = x3b))
  /\ (forall b : byte, b <> x20 -> Content.hex_escaped b = Encoding.binary_in_spec b)
  /\ (forall c : Content.t,
      Content.FormatPattern c = Encoding.encode Content.hex_escaped (Content.Pattern c))
  /\ Content.FormatPattern (content_of [x20]) = " ".
Proof.
  split; [exact hex_escaped_iff|]. split; [exact hex_escaped_binary_in_spec|].
  split; [|reflexivity].
  intros c. rewrite FormatPattern_unfold. apply FormatPattern_from_runs.
Qed.

Lemma FormatPattern_hex_escapes_exactly_witness :
  Content.hex_escaped x3b = Encoding.binary_in_spec x3b
  /\ Content.FormatPattern (content_of [x61; x3b; x0a; x20; x62]) = "a|3B 0A| b".
Proof.
  destruct FormatPattern_hex_escapes_exactly as (_ & H2 & H3 & _).
  split.
  - apply H2. discriminate.
  - rewrite H3. reflexivity.
Defined.

(** C2, as stated, fails on the space: the specification counts it among
    the binary bytes, so the claimed encoding of a single space is "|20|",
    and [FormatPattern] returns the space itself. *)
Lemma FormatPattern_space_is_copied :
  Encoding.binary_in_spec x20 = true
  /\ Encoding.encode Encoding.binary_in_spec [x20] = "|20|"
  /\ Content.FormatPattern (content_of [x20]) = " "
  /\ Content.FormatPattern (content_of [x20])
     <> Encoding.encode Encoding.binary_in_spec (Content.Pattern (content_of [x20])).
Proof. repeat split; try reflexivity. discriminate. Qed.

(** C3 (amended): for a byte sequence whose bytes all lie in 35-126 and are
    none of space, colon, semicolon, [FormatPattern] returns the bytes read
    as text, and the result holds no [|] when the sequence holds none
    (byte 0x7C); for the bytes 0x00, 0x41, 0x00 it returns "|00|A|00|"; and
    a run of escaped bytes between copied ones is written inside one pair
    of [|], single spaces between its pairs, closed also at the end of the
    input. *)
Theorem FormatPattern_plain_text_and_runs :
  (forall c : Content.t,
      forallb Encoding.plain_in_spec (Content.Pattern c) = true ->
      Content.FormatPattern c = string_of_bytes (Content.Pattern c))
  /\ (forall c : Content.t,
      forallb Encoding.plain_in_spec (Content.Pattern c) = true ->
      ~ In x7c (Content.Pattern c) ->
      has_byte "|" (Content.FormatPattern c) = false)
  /\ Content.FormatPattern (content_of [x00; x41; x00]) = "|00|A|00|"
  /\ (forall (lit1 : list byte) (b : byte) (run lit2 : list byte),
      forallb (fun x => negb (Content.hex_escaped x)) lit1 = true ->
      forallb Content.hex_escaped (b :: run) = true ->
      forallb (fun x => negb (Content.hex_escaped x)) lit2 = true ->
      Content.FormatPattern (content_of (lit1 ++ (b :: run) ++ lit2))
      = string_of_bytes lit1
        +:+ "|" +:+ fmt_02X b +:+ concat_strings (map Encoding.spaced_pair run) +:+ "|"
        +:+ string_of_bytes lit2).
Proof.
  assert (Hplain : forall c : Content.t,
             forallb Encoding.plain_in_spec (Content.Pattern c) = true ->
             Content.FormatPattern c = string_of_bytes (Content.Pattern c)).
  { intros c Hc. rewrite FormatPattern_unfold.
    now apply FormatPattern_from_plain, forallb_plain_literal. }
  split; [exact Hplain|]. split; [|split; [reflexivity|]].
  - intros c Hc Hpipe. rewrite (Hplain c Hc). now apply has_byte_pipe_bytes.
  - intros lit1 b run lit2 H1 Hrun H2. rewrite FormatPattern_unfold.
    cbn [Content.Pattern content_of].
    assert (Hmid : FormatPattern_from false ((b :: run) ++ lit2)
                   = "|" +:+ fmt_02X b +:+ concat_strings (map Encoding.spaced_pair run)
                     +:+ "|" +:+ string_of_bytes lit2).
    { simpl in Hrun. apply andb_true_iff in Hrun as [Hb Hrun].
      rewrite <- app_comm_cons. simpl FormatPattern_from. rewrite Hb.
      rewrite (FormatPattern_from_run run lit2 Hrun).
      destruct lit2 as [|x lit2].
      - simpl. now sapp_norm.
      - rewrite <- (app_nil_r (x :: lit2)) at 1.
        rewrite (FormatPattern_from_literal true (x :: lit2) [] H2) by discriminate.
        simpl FormatPattern_from. now sapp_norm. }
    destruct lit1 as [|x lit1].
    + rewrite app_nil_l, Hmid. reflexivity.
    + rewrite (FormatPattern_from_literal false (x :: lit1) _ H1) by discriminate.
      rewrite Hmid. now sapp_norm.
Qed.

Lemma FormatPattern_plain_text_and_runs_witness :
  Content.FormatPattern (content_of [x47; x45; x54; x2f]) = "GET/"
  /\ has_byte "|" (Content.FormatPattern (content_of [x47; x45; x54; x2f])) = false
  /\ Content.FormatPattern (content_of ([x61; x20] ++ [x0d; x0a; xff] ++ [x62]))
     = "a |0D 0A FF|b".
Proof.
  destruct FormatPattern_plain_text_and_runs as (H1 & H2 & _ & H4).
  split; [|split].
  - apply (H1 (content_of [x47; x45; x54; x2f])). reflexivity.
  - apply (H2 (content_of [x47; x45; x54; x2f])); [reflexivity|].
    simpl. intros [H|[H|[H|[H|H]]]]; try discriminate H. exact H.
  - apply (H4 [x61; x20] x0d [x0a; xff] [x62]); reflexivity.
Defined.

(** C3, as stated, fails on the byte 0x7C: it lies in 35-126 and is none of
    space, colon, semicolon, it is copied, and so the result holds a [|]. *)
Lemma FormatPattern_copies_pipe :
  forallb Encoding.plain_in_spec (Content.Pattern (content_of [x7c])) = true
  /\ Content.FormatPattern (content_of [x7c]) = "|"
  /\ has_byte "|" (Content.FormatPattern (content_of [x7c])) = true.
Proof. repeat split; reflexivity. Qed.

(** ** The regular expression of a rule *)

Lemma RE_step_writes (escapeRE : ascii -> bool) (re : string) (c : Content.t) :
  Rule.RE_step escapeRE re c
  = re +:+ (within_gap c +:+ escape escapeRE (string_of_bytes (Content.Pattern c))).
Proof.
  unfold Rule.RE_step, within_gap.
  destruct (Atoi (within (Content.Options c))) as [d|]; [destruct (0 <? d)|];
    now sapp_norm.
Qed.

(** Bytes outside the class are left as they are by [escape]; in
    particular nothing is turned into a [.]. *)
Lemma escape_no_special (escapeRE : ascii -> bool) (s : string) :
  (forall c, escapeRE c = true -> has_byte c s = false) ->
  escape escapeRE s = s.
Proof.
  unfold escape. induction s as [|c s IH]; intros Hs; [reflexivity|].
  simpl. destruct (escapeRE c) eqn:Ec.
  - specialize (Hs c Ec). simpl in Hs. now rewrite Ascii.eqb_refl in Hs.
  - f_equal. apply IH. intros c' Hc'. specialize (Hs c' Hc'). simpl in Hs.
    now apply orb_false_iff in Hs as [_ Hs].
Qed.

(** [escape] works byte by byte on a pattern. *)
Lemma escape_bytes (escapeRE : ascii -> bool) (bs : list byte) :
  escape escapeRE (string_of_bytes bs)
  = concat_strings (map (escaped_byte escapeRE) bs).
Proof.
  unfold escape. induction bs as [|b bs IH]; [reflexivity|].
  rewrite string_of_bytes_cons. unfold byte_string at 1.
  rewrite sapp_String, sapp_nil_l. cbn [escape_class map concat_strings].
  rewrite IH. unfold escaped_byte, byte_string.
  destruct (escapeRE (ascii_of_byte b)); now sapp_norm.
Qed.

(** C4 (amended): [Rule.RE] visits the contents of [Contents] in order and
    writes, for each, [.{0,d}] when the value of its [within] option parses
    as a positive integer [d] and [.*] otherwise, then the bytes of the
    pattern as they are, a backslash before each byte that [escapeRE]
    matches and nothing before the others.  No byte is replaced by a [.]:
    [ToRegexp] is not used. *)
Theorem RE_gaps_and_escaped_patterns :
  (forall (escapeRE : ascii -> bool) (r : Rule.t),
      Rule.RE escapeRE r
      = concat_strings
          (map (fun c => within_gap c
                         +:+ escape escapeRE (string_of_bytes (Content.Pattern c)))
               (Rule.Contents r)))
  /\ (forall (c : Content.t) (d : Z),
      Atoi (within (Content.Options c)) = Some d -> 0 < d ->
      within_gap c = ".{0," +:+ fmt_d d +:+ "}")
  /\ (forall c : Content.t,
      (forall d, Atoi (within (Content.Options c)) = Some d -> d <= 0) ->
      within_gap c = ".*")
  /\ (forall (escapeRE : ascii -> bool) (s : string),
      (forall c, escapeRE c = true -> has_byte c s = false) ->
      escape escapeRE s = s)
  /\ (forall (escapeRE : ascii -> bool) (r : Rule.t),
      Rule.RE escapeRE r
      = concat_strings
          (map (fun c => within_gap c
                         +:+ concat_strings
                               (map (escaped_byte escapeRE) (Content.Pattern c)))
               (Rule.Contents r)))
  /\ (forall escapeRE : ascii -> bool, escape escapeRE EmptyString = EmptyString)
  /\ (forall (escapeRE : ascii -> bool) (c : ascii) (s : string),
      escapeRE c = true ->
      escape escapeRE (String c s) = String backslash (String c (escape escapeRE s)))
  /\ (forall (escapeRE : ascii -> bool) (c : ascii) (s : string),
      escapeRE c = false ->
      escape escapeRE (String c s) = String c (escape escapeRE s)).
Proof.
  assert (Hloop : forall (escapeRE : ascii -> bool) (r : Rule.t),
             Rule.RE escapeRE r
             = concat_strings
                 (map (fun c => within_gap c
                                +:+ escape escapeRE (string_of_bytes (Content.Pattern c)))
                      (Rule.Contents r))).
  { intros escapeRE r. unfold Rule.RE.
    rewrite (fold_left_writer (Rule.RE_step escapeRE) _ (RE_step_writes escapeRE)).
    reflexivity. }
  split; [exact Hloop|]. split; [|split; [|split; [|split; [|split; [|split]]]]].
  - intros c d Hd Hpos. unfold within_gap. rewrite Hd.
    apply Z.ltb_lt in Hpos. now rewrite Hpos.
  - intros c Hnone. unfold within_gap.
    destruct (Atoi (within (Content.Options c))) as [d|]; [|reflexivity].
    specialize (Hnone d eq_refl). destruct (Z.ltb_spec 0 d); [lia | reflexivity].
  - exact escape_no_special.
  - intros escapeRE r. rewrite Hloop. f_equal. apply map_ext. intros c.
    now rewrite escape_bytes.
  - reflexivity.
  - intros escapeRE c s Hc. unfold escape. cbn [escape_class]. now rewrite Hc.
  - intros escapeRE c s Hc. unfold escape. cbn [escape_class]. now rewrite Hc.
Qed.

Lemma RE_gaps_and_escaped_patterns_witness :
  within_gap (Content.Build DataPos.pktData (FastPattern.Build false false 0 0)
                [x61] false [ContentOption.Build "within" "+50"])
  = ".{0,50}"
  /\ within_gap (Content.Build DataPos.pktData (FastPattern.Build false false 0 0)
                   [x61] false [ContentOption.Build "within" "var"])
     = ".*"
  /\ escape (fun c => Ascii.eqb c ".") "a|b" = "a|b"
  /\ escape (fun c => Ascii.eqb c ".") ".b" = "\.b"
  /\ escape (fun c => Ascii.eqb c ".") "b." = "b\."
  /\ Rule.RE (fun c => Ascii.eqb c ".")
       (rule_of_contents
          [Content.Build DataPos.pktData (FastPattern.Build false false 0 0)
             [x61; x2e; x00] false [ContentOption.Build "within" "5"];
           content_of [x2e; x2e]])
     = ".{0,5}a\." +:+ byte_string x00 +:+ ".*\.\.".
Proof.
  destruct RE_gaps_and_escaped_patterns as (_ & H2 & H3 & H4 & H5 & _ & H7 & H8).
  split; [|split; [|split; [|split; [|split]]]].
  - apply (H2 _ 50); [reflexivity | lia].
  - apply H3. intros d Hd. discriminate Hd.
  - apply H4. intros c Hc. apply Ascii.eqb_eq in Hc. subst c. reflexivity.
  - apply (H7 (fun c => Ascii.eqb c ".") "."%char "b"). reflexivity.
  - refine (eq_trans (H8 (fun c => Ascii.eqb c ".") "b"%char "." eq_refl) _).
    reflexivity.
  - refine (eq_trans (H5 (fun c => Ascii.eqb c ".") _) _). vm_compute. reflexivity.
Defined.

(** C4, as stated, fails on a content whose pattern is the single byte
    0x00: the specification has the byte replaced by a [.], which
    [QuoteMeta] escapes, and [Rule.RE] keeps the byte, whatever class of
    bytes [escapeRE] matches. *)
Lemma RE_keeps_unprintable_bytes :
  RE_in_spec (rule_of_contents [content_of [x00]]) = ".*\."
  /\ ~ (exists escapeRE : ascii -> bool,
          Rule.RE escapeRE (rule_of_contents [content_of [x00]])
          = RE_in_spec (rule_of_contents [content_of [x00]])).
Proof.
  split; [reflexivity|]. intros [escapeRE H].
  cbv [Rule.RE Rule.RE_step rule_of_contents Rule.Contents fold_left content_of
       Content.Options Content.Pattern within escape string_of_bytes
       string_of_list_byte map string_of_list_ascii escape_class] in H.
  change (RE_in_spec _) with ".*\." in H.
  destruct (escapeRE (ascii_of_byte x00)); vm_compute in H; discriminate H.
Qed.

(** ** The matchers of a rule *)

(** The loop over the matchers, started on any builder and cursor, writes
    the emission of the contents. *)
Lemma matcher_loop (ms : list orderedMatcher) (s : string) (d : DataPos.t) :
  fst (fold_left Rule.matcher_step ms (s, d))
  = s +:+ concat_strings (map emitted_text (emission tracked_content d ms)).
Proof.
  revert s d. induction ms as [|m ms IH]; intros s d.
  - simpl. now sapp_norm.
  - cbn [fold_left emission].
    destruct m as [c|p|b|t]; cbn [Rule.matcher_step tracked_content].
    + destruct (Z.eqb_spec d (Content.DataPosition c)) as [->|Hne]; cbn [negb];
        rewrite IH; cbn [map concat_strings emitted_text]; now sapp_norm.
    + rewrite IH. cbn [map concat_strings emitted_text]. now sapp_norm.
    + rewrite IH. cbn [map concat_strings emitted_text]. now sapp_norm.
    + rewrite IH. cbn [map concat_strings emitted_text]. now sapp_norm.
Qed.

Lemma write_tags (tags : list (string * string)) (s : string) :
  fold_left Rule.write_tag tags s
  = s +:+ concat_strings (map (fun kv => fst kv +:+ ":" +:+ snd kv +:+ "; ") tags).
Proof. now apply fold_left_writer. Qed.

Lemma write_flowbits (fbs : list Flowbit.t) (s : string) :
  fold_left Rule.write_flowbit fbs s
  = s +:+ concat_strings (map (fun fb => Flowbit.String fb +:+ " ") fbs).
Proof. now apply fold_left_writer. Qed.

Lemma write_references (refs : list Reference.t) (s : string) :
  fold_left Rule.write_reference refs s
  = s +:+ concat_strings (map (fun ref => Reference.String ref +:+ " ") refs).
Proof. now apply fold_left_writer. Qed.

(** [Rule.String] writes the header, the emission of the matchers from the
    default buffer, and the trailer. *)
Lemma Rule_String_parts (tags : list (string * string)) (r : Rule.t) :
  Rule.String tags r
  = Rule_header r
    +:+ concat_strings
          (map emitted_text (emission tracked_content DataPos.pktData (Rule.Matchers r)))
    +:+ Rule_trailer tags r.
Proof.
  unfold Rule.String, Rule_header, Rule_trailer.
  rewrite write_references, write_flowbits, write_tags.
  assert (Hms : forall s,
             (if 0 <? Z.of_nat (length (Rule.Matchers r))
              then fst (fold_left Rule.matcher_step (Rule.Matchers r) (s, DataPos.pktData))
              else s)
             = s +:+ concat_strings
                       (map emitted_text
                            (emission tracked_content DataPos.pktData (Rule.Matchers r)))).
  { intros s. rewrite matcher_loop.
    destruct (Rule.Matchers r); [simpl; now sapp_norm | reflexivity]. }
  rewrite Hms. clear Hms.
  destruct (Rule.Metas r) as [|m metas]; destruct (Rule.Disabled r), (Rule.Bidirectional r);
    cbn [length negb]; try (change (0 <? Z.of_nat 0) with false; cbn iota);
    try (replace (0 <? Z.of_nat (S (length metas))) with true by (symmetry; apply Z.ltb_lt; lia);
         cbn iota);
    now sapp_norm.
Qed.

(** X22: what the pass of [Rule.String] does for the contents.  The cursor
    starts at the default buffer; a [*Content] whose [DataPosition] differs
    from the cursor is preceded by the directive of its buffer, which
    becomes the cursor; a [*Content] whose [DataPosition] is the cursor is
    written with no directive.  The loop compares nothing else with the
    cursor: a matcher of any other dynamic type is written as it is and
    leaves the cursor alone.  So a rule whose matchers are two contents, the
    first in the default buffer and the second in file_data, has exactly
    one directive, "file_data;", right before the clause of the second
    content. *)
Theorem Rule_String_sticky_buffer_directives :
  (forall (tags : list (string * string)) (r : Rule.t),
      Rule.String tags r
      = Rule_header r
        +:+ concat_strings
              (map emitted_text
                   (emission tracked_content DataPos.pktData (Rule.Matchers r)))
        +:+ Rule_trailer tags r)
  /\ (forall (d : DataPos.t) (c : Content.t) (ms : list orderedMatcher),
      Content.DataPosition c <> d ->
      emission tracked_content d (MContent c :: ms)
      = Directive (Content.DataPosition c) :: Clause (MContent c)
        :: emission tracked_content (Content.DataPosition c) ms)
  /\ (forall (d : DataPos.t) (c : Content.t) (ms : list orderedMatcher),
      Content.DataPosition c = d ->
      emission tracked_content d (MContent c :: ms)
      = Clause (MContent c) :: emission tracked_content d ms)
  /\ (forall (d : DataPos.t) (m : orderedMatcher) (ms : list orderedMatcher),
      (forall c, m <> MContent c) ->
      emission tracked_content d (m :: ms) = Clause m :: emission tracked_content d ms)
  /\ (forall (tags : list (string * string)) (r : Rule.t) (c1 c2 : Content.t),
      Rule.Matchers r = [MContent c1; MContent c2] ->
      Content.DataPosition c1 = DataPos.pktData ->
      Content.DataPosition c2 = DataPos.fileData ->
      directives (emission tracked_content DataPos.pktData (Rule.Matchers r))
      = [DataPos.fileData]
      /\ Rule.String tags r
         = Rule_header r
           +:+ Content.String c1 +:+ " " +:+ " file_data;" +:+ Content.String c2 +:+ " "
           +:+ Rule_trailer tags r).
Proof.
  split; [exact Rule_String_parts|]. split; [|split; [|split]].
  - intros d c ms Hne. cbn [emission tracked_content].
    destruct (Z.eqb_spec d (Content.DataPosition c)); [congruence | reflexivity].
  - intros d c ms <-. cbn [emission tracked_content]. now rewrite Z.eqb_refl.
  - intros d m ms Hm. destruct m as [c|p|b|t]; try reflexivity.
    now destruct (Hm c).
  - intros tags r c1 c2 Hms H1 H2. rewrite Rule_String_parts, Hms.
    cbn [emission tracked_content]. rewrite H1, H2.
    split; [reflexivity|].
    cbn [Z.eqb DataPos.pktData DataPos.fileData map concat_strings emitted_text
         orderedMatcher_String].
    change (DataPos.String 1) with "file_data". now sapp_norm.
Qed.

Lemma Rule_String_sticky_buffer_directives_witness :
  emission tracked_content DataPos.pktData
    [MContent (Content.Build DataPos.httpStart (FastPattern.Build false false 0 0)
                 [x47; x45; x54] false [])]
  = [Directive DataPos.httpStart;
     Clause (MContent (Content.Build DataPos.httpStart (FastPattern.Build false false 0 0)
                         [x47; x45; x54] false []))]
  /\ emission tracked_content DataPos.pktData [MContent (content_of [x61])]
     = [Clause (MContent (content_of [x61]))]
  /\ emission tracked_content DataPos.pktData
       [MByteMatch (ByteMatch.Build DataPos.fileData byteMatcher.bJump EmptyString 4
                      EmptyString 0 12 [])]
     = [Clause (MByteMatch (ByteMatch.Build DataPos.fileData byteMatcher.bJump EmptyString 4
                              EmptyString 0 12 []))]
  /\ Rule.String []
       (rule_of [MContent (content_of [x61]);
                 MContent (Content.Build DataPos.fileData (FastPattern.Build false false 0 0)
                             [x62] false [])])
     = "alert tcp any any -> any any (msg:" +:+ dquote +:+ dquote +:+ "; content:"
       +:+ dquote +:+ "a" +:+ dquote +:+ ";  file_data;content:" +:+ dquote +:+ "b"
       +:+ dquote +:+ "; sid:0; rev:0;)".
Proof.
  destruct Rule_String_sticky_buffer_directives as (_ & H2 & H3 & H4 & H5).
  split; [|split; [|split]].
  - apply (H2 DataPos.pktData). discriminate.
  - apply (H3 DataPos.pktData). reflexivity.
  - apply (H4 DataPos.pktData). discriminate.
  - destruct (H5 [] (rule_of [MContent (content_of [x61]);
                               MContent (Content.Build DataPos.fileData
                                           (FastPattern.Build false false 0 0)
                                           [x62] false [])])
                  (content_of [x61])
                  (Content.Build DataPos.fileData (FastPattern.Build false false 0 0)
                     [x62] false [])
                  eq_refl eq_refl eq_refl) as [_ Hs].
    rewrite Hs. vm_compute. reflexivity.
Defined.

(** C1: the claim has a directive before every [ByteMatch] whose
    [DataPosition] differs from the cursor; [Rule.String] does not do it.
    [ByteMatch] has the field [DataPosition], documented like the one of
    [Content], and [ByteMatch.String] is marked "TODO: Support dataPos?",
    but the loop of [Rule.String] compares only a [*Content] with the
    cursor.  On the rule whose only matcher is a [byte_test] in file_data
    the claimed text has the directive "file_data;" before the byte
    matcher, and [Rule.String] writes the byte matcher with no directive:
    the buffer of the byte matcher is lost. *)
Lemma Rule_String_no_directive_for_ByteMatch :
  let r := rule_of [MByteMatch (ByteMatch.Build DataPos.fileData byteMatcher.bTest
                                  EmptyString 4 ">" 100 0 [])] in
  String_in_spec [] r
  = "alert tcp any any -> any any (msg:" +:+ dquote +:+ dquote
    +:+ ";  file_data;byte_test:4,>,100,0; sid:0; rev:0;)"
  /\ Rule.String [] r
     = "alert tcp any any -> any any (msg:" +:+ dquote +:+ dquote
       +:+ "; byte_test:4,>,100,0; sid:0; rev:0;)"
  /\ Rule.String [] r <> String_in_spec [] r.
Proof.
  cbv zeta. split; [vm_compute; reflexivity|]. split; [vm_compute; reflexivity|].
  vm_compute. discriminate.
Qed.

(** With no tags, the order of the visit of [r.Tags] does not matter:
    [Rule.String] has one result. *)
Lemma String_returns_no_tags (r : Rule.t) (out : string) :
  Rule.Tags r = ∅ -> (Rule.String_returns r out <-> out = Rule.String [] r).
Proof.
  intros Hr. unfold Rule.String_returns. rewrite Hr, map_to_list_empty. split.
  - intros (tags & Hp & ->). apply Permutation_nil_r in Hp. now subst.
  - intros ->. exists []. split; reflexivity.
Qed.

(** * More properties of rule.go *)

(** ** Round trips through the keyword tables *)

Lemma stickyBuffers_lookup_range (d : Z) :
  0 <= d <= 28 ->
  exists s : string, DataPos.stickyBuffers !! d = Some s /\ s <> EmptyString.
Proof.
  intros Hd.
  assert (Hin : d ∈ DataPos.stickyBuffers_entries.*1).
  { rewrite stickyBuffers_key_range, elem_of_seqZ. lia. }
  apply list_elem_of_fmap in Hin as ([k s] & -> & Hin). exists s. split.
  - apply elem_of_list_to_map_1; [exact stickyBuffers_keys | exact Hin].
  - intros ->.
    assert (Hs : EmptyString ∈ DataPos.stickyBuffers_entries.*2).
    { apply list_elem_of_fmap. exists (k, EmptyString). auto. }
    revert Hs. compute_done.
Qed.

Lemma stickyBuffers_lookup_outside (d : Z) :
  d < 0 \/ 28 < d -> DataPos.stickyBuffers !! d = None.
Proof.
  intros Hd. apply not_elem_of_list_to_map_1.
  rewrite stickyBuffers_key_range, elem_of_seqZ. lia.
Qed.

Lemma range_find_found (order : list (Z * string)) (k : Z) (s : string) :
  range_find order s = Some k -> (k, s) ∈ order.
Proof.
  induction order as [|[k' v] order IH]; [discriminate|].
  simpl. destruct (String.eqb_spec v s) as [->|Hne].
  - intros [= ->]. left.
  - intros H. right. auto.
Qed.

(** X1: the sticky-buffer table read in both directions.  For every
    declared buffer [d] (0 to 28) and every order of the visit of the map,
    [StickyBuffer] applied to the keyword [DataPos.String d] returns [d]
    with a nil error; and when [StickyBuffer s] returns [k] with a nil
    error, [DataPos.String k] is [s].  [isStickyBuffer s] is true exactly
    when [s] is a keyword of the table. *)
Theorem sticky_buffer_round_trip :
  (forall (order : list (Z * string)) (d : DataPos.t),
      order ≡ₚ map_to_list DataPos.stickyBuffers -> 0 <= d <= 28 ->
      StickyBuffer order (DataPos.String d) = (d, None))
  /\ (forall (order : list (Z * string)) (s : string) (k : DataPos.t),
      order ≡ₚ map_to_list DataPos.stickyBuffers ->
      StickyBuffer order s = (k, None) -> DataPos.String k = s)
  /\ (forall (order : list (Z * string)) (s : string),
      order ≡ₚ map_to_list DataPos.stickyBuffers ->
      (isStickyBuffer order s = true
       <-> exists k, DataPos.stickyBuffers !! k = Some s)).
Proof.
  assert (Hback : forall order s k,
             order ≡ₚ map_to_list DataPos.stickyBuffers ->
             StickyBuffer order s = (k, None) -> DataPos.stickyBuffers !! k = Some s).
  { intros order s k Hp. unfold StickyBuffer.
    destruct (range_find order s) as [k'|] eqn:E; [|discriminate].
    intros [= <-]. apply range_find_found in E. rewrite Hp in E.
    now apply elem_of_map_to_list in E. }
  split; [|split].
  - intros order d Hp Hd. destruct (stickyBuffers_lookup_range d Hd) as (s & Hs & _).
    unfold DataPos.String, StickyBuffer. rewrite Hs. simpl.
    now rewrite (visit_finds _ stickyBuffers_keys stickyBuffers_values order d s Hp Hs).
  - intros order s k Hp Hk. unfold DataPos.String.
    now rewrite (Hback order s k Hp Hk).
  - intros order s Hp. unfold isStickyBuffer. split.
    + destruct (StickyBuffer order s) as [k [msg|]] eqn:E; [discriminate|].
      intros _. exists k. now apply (Hback order s k Hp).
    + intros [k Hk]. unfold StickyBuffer.
      now rewrite (visit_finds _ stickyBuffers_keys stickyBuffers_values order k s Hp Hk).
Qed.

Lemma sticky_buffer_round_trip_witness :
  StickyBuffer (rev (map_to_list DataPos.stickyBuffers)) (DataPos.String DataPos.dnsQuery)
  = (DataPos.dnsQuery, None)
  /\ DataPos.String DataPos.ja3Hash = "ja3_hash"
  /\ (isStickyBuffer (map_to_list DataPos.stickyBuffers) "ssh_proto" = true
      <-> exists k, DataPos.stickyBuffers !! k = Some "ssh_proto").
Proof.
  destruct sticky_buffer_round_trip as (H1 & H2 & H3).
  split; [|split].
  - apply H1; [symmetry; apply Permutation_rev | unfold DataPos.dnsQuery; lia].
  - apply (H2 (map_to_list DataPos.stickyBuffers)); [reflexivity | vm_compute; reflexivity].
  - apply H3. reflexivity.
Defined.

(** X2: [DataPos.String d] is the empty string exactly when [d] is none
    of the declared buffers (below 0 or above 28): no keyword of the table
    is empty; and two declared buffers with the same keyword are the same
    buffer. *)
Theorem DataPos_String_empty_iff :
  (forall d : DataPos.t, DataPos.String d = EmptyString <-> (d < 0 \/ 28 < d))
  /\ (forall d1 d2 : DataPos.t,
      0 <= d1 <= 28 -> 0 <= d2 <= 28 ->
      DataPos.String d1 = DataPos.String d2 -> d1 = d2).
Proof.
  split.
  - intros d. split.
    + intros Hempty. destruct (Z_lt_dec d 0); [auto|]. destruct (Z_lt_dec 28 d); [auto|].
      exfalso. destruct (stickyBuffers_lookup_range d ltac:(lia)) as (s & Hs & Hne).
      unfold DataPos.String in Hempty. rewrite Hs in Hempty. now apply Hne.
    + intros Hd. unfold DataPos.String. now rewrite stickyBuffers_lookup_outside.
  - intros d1 d2 H1 H2 Heq.
    destruct (stickyBuffers_lookup_range d1 H1) as (s1 & Hs1 & _).
    destruct (stickyBuffers_lookup_range d2 H2) as (s2 & Hs2 & _).
    unfold DataPos.String in Heq. rewrite Hs1, Hs2 in Heq. simpl in Heq. subst s2.
    pose proof (visit_finds _ stickyBuffers_keys stickyBuffers_values
                  (map_to_list DataPos.stickyBuffers) d1 s1 (reflexivity _) Hs1) as F1.
    pose proof (visit_finds _ stickyBuffers_keys stickyBuffers_values
                  (map_to_list DataPos.stickyBuffers) d2 s1 (reflexivity _) Hs2) as F2.
    congruence.
Qed.

Lemma DataPos_String_empty_iff_witness :
  DataPos.String (-1) = EmptyString /\ DataPos.tlsSNI = 19.
Proof.
  destruct DataPos_String_empty_iff as [H1 H2]. split.
  - apply H1. left. lia.
  - apply H2; [unfold DataPos.tlsSNI; lia | lia | reflexivity].
Defined.

(** X3: the byte-matcher table read in both directions, and [minLen].
    [ByteMatcher] applied to the keyword of [bExtract], [bJump] or [bTest]
    returns that kind with a nil error, in every order of the visit;
    a successful [ByteMatcher s] returns a kind whose keyword is [s] and
    whose [minLen] is positive; and [minLen b] is -1 exactly when [b] has no
    keyword in the table. *)
Theorem byte_matcher_round_trip :
  (forall (order : list (Z * string)) (b : byteMatcher.t),
      order ≡ₚ map_to_list byteMatcher.byteMatcherVals ->
      b = byteMatcher.bExtract \/ b = byteMatcher.bJump \/ b = byteMatcher.bTest ->
      ByteMatcher order (byteMatcher.String b) = (b, None))
  /\ (forall (order : list (Z * string)) (s : string) (b : byteMatcher.t),
      order ≡ₚ map_to_list byteMatcher.byteMatcherVals ->
      ByteMatcher order s = (b, None) ->
      byteMatcher.String b = s /\ 0 < byteMatcher.minLen b)
  /\ (forall b : byteMatcher.t,
      byteMatcher.minLen b = -1 <-> byteMatcher.byteMatcherVals !! b = None).
Proof.
  assert (Hkeys : forall b s, byteMatcher.byteMatcherVals !! b = Some s ->
                              b = 1 \/ b = 2 \/ b = 3).
  { intros b s Hb. apply elem_of_list_to_map_2 in Hb.
    unfold byteMatcher.byteMatcherVals_entries in Hb.
    rewrite !elem_of_cons in Hb. destruct Hb as [H|[H|[H|H]]];
      [inversion H; auto .. | inversion H]. }
  split; [|split].
  - intros order b Hp Hb.
    assert (Hs : byteMatcher.byteMatcherVals !! b = Some (byteMatcher.String b)).
    { destruct Hb as [-> | [-> | ->]]; vm_compute; reflexivity. }
    unfold ByteMatcher.
    now rewrite (visit_finds _ byteMatcherVals_keys byteMatcherVals_values order b _ Hp Hs).
  - intros order s b Hp. unfold ByteMatcher.
    destruct (range_find order s) as [k|] eqn:E; [|discriminate].
    intros [= <-]. apply range_find_found in E. rewrite Hp in E.
    apply elem_of_map_to_list in E. split.
    + unfold byteMatcher.String. now rewrite E.
    + destruct (Hkeys k s E) as [-> | [-> | ->]]; vm_compute; reflexivity.
  - intros b. split.
    + intros Hm. destruct (byteMatcher.byteMatcherVals !! b) as [s|] eqn:E; [|reflexivity].
      destruct (Hkeys b s E) as [-> | [-> | ->]]; vm_compute in Hm; discriminate Hm.
    + intros Hnone. unfold byteMatcher.minLen, byteMatcher.bExtract, byteMatcher.bJump,
        byteMatcher.bTest.
      destruct (Z.eqb_spec b 1) as [-> | ]; [vm_compute in Hnone; discriminate|].
      destruct (Z.eqb_spec b 3) as [-> | ]; [vm_compute in Hnone; discriminate|].
      destruct (Z.eqb_spec b 2) as [-> | ]; [vm_compute in Hnone; discriminate|].
      reflexivity.
Qed.

Lemma byte_matcher_round_trip_witness :
  ByteMatcher (rev (map_to_list byteMatcher.byteMatcherVals))
    (byteMatcher.String byteMatcher.bJump) = (byteMatcher.bJump, None)
  /\ (byteMatcher.String byteMatcher.bTest = "byte_test"
      /\ 0 < byteMatcher.minLen byteMatcher.bTest).
Proof.
  destruct byte_matcher_round_trip as (H1 & H2 & _).
  split.
  - apply H1; [symmetry; apply Permutation_rev | auto].
  - apply (H2 (map_to_list byteMatcher.byteMatcherVals)); [reflexivity|].
    vm_compute. reflexivity.
Defined.

(** The loop of [allByteMatcherNames] fills the cells in the order of the
    visit. *)
Lemma allByteMatcherNames_fill (order : list (Z * string)) (done : list string) :
  fold_left allByteMatcherNames_step order
    (done ++ replicate (length order) EmptyString, length done)
  = (done ++ order.*2, (length done + length order)%nat).
Proof.
  revert done. induction order as [|[k v] order IH]; intros done.
  - simpl. now rewrite Nat.add_0_r.
  - cbn [fold_left allByteMatcherNames_step length replicate snd].
    rewrite insert_app_r_alt by lia. rewrite Nat.sub_diag.
    change (<[0%nat:=v]> (EmptyString :: replicate (length order) EmptyString))
      with ([v] ++ replicate (length order) EmptyString).
    rewrite (app_assoc done [v]).
    replace (S (length done)) with (length (done ++ [v]))
      by (rewrite length_app; simpl; lia).
    rewrite IH, length_app, fmap_cons, <- app_assoc. simpl. f_equal. lia.
Qed.

(** X4: for every order of the visit of [byteMatcherVals],
    [allByteMatcherNames] returns the keywords in that order: a permutation
    of byte_extract, byte_jump, byte_test, with no cell left empty; and
    [ByteMatcher] accepts each name it returns. *)
Theorem allByteMatcherNames_keywords :
  forall order : list (Z * string),
    order ≡ₚ map_to_list byteMatcher.byteMatcherVals ->
    allByteMatcherNames order = order.*2
    /\ allByteMatcherNames order ≡ₚ ["byte_extract"; "byte_jump"; "byte_test"]
    /\ (forall (n : string) (order' : list (Z * string)),
           n ∈ allByteMatcherNames order ->
           order' ≡ₚ map_to_list byteMatcher.byteMatcherVals ->
           snd (ByteMatcher order' n) = None).
Proof.
  intros order Hp.
  assert (Hlen : size byteMatcher.byteMatcherVals = length order).
  { rewrite <- length_map_to_list. symmetry. now apply Permutation_length. }
  assert (Hfill : allByteMatcherNames order = order.*2).
  { unfold allByteMatcherNames. rewrite Hlen.
    exact (f_equal fst (allByteMatcherNames_fill order [])). }
  assert (Hnames : order.*2 ≡ₚ ["byte_extract"; "byte_jump"; "byte_test"]).
  { rewrite (visit_perm _ byteMatcherVals_keys order Hp). reflexivity. }
  split; [exact Hfill|]. split; [now rewrite Hfill|].
  intros n order' Hn Hp'. rewrite Hfill in Hn.
  apply list_elem_of_fmap in Hn as ([k v] & -> & Hin). simpl.
  rewrite Hp in Hin. apply elem_of_map_to_list in Hin. unfold ByteMatcher.
  now rewrite (visit_finds _ byteMatcherVals_keys byteMatcherVals_values order' k v Hp' Hin).
Qed.

Lemma allByteMatcherNames_keywords_witness :
  allByteMatcherNames (rev (map_to_list byteMatcher.byteMatcherVals))
  ≡ₚ ["byte_extract"; "byte_jump"; "byte_test"].
Proof.
  apply (allByteMatcherNames_keywords (rev (map_to_list byteMatcher.byteMatcherVals))).
  symmetry. apply Permutation_rev.
Defined.

(** ** The first option named within, the first reference of type cve *)

(** X5: [within] returns the value of the first option named "within",
    whatever follows it, and the empty string when no option has that name;
    so a content without such an option gets the gap [.*] in [Rule.RE]. *)
Theorem within_first_option :
  (forall opts : list ContentOption.t,
      (forall o, In o opts -> ContentOption.Name o <> "within") ->
      within opts = EmptyString)
  /\ (forall (pre : list ContentOption.t) (o : ContentOption.t) (post : list ContentOption.t),
      (forall o', In o' pre -> ContentOption.Name o' <> "within") ->
      ContentOption.Name o = "within" ->
      within (pre ++ o :: post) = ContentOption.Value o)
  /\ (forall c : Content.t,
      (forall o, In o (Content.Options c) -> ContentOption.Name o <> "within") ->
      within_gap c = ".*").
Proof.
  assert (Hnone : forall opts : list ContentOption.t,
             (forall o, In o opts -> ContentOption.Name o <> "within") ->
             within opts = EmptyString).
  { induction opts as [|o opts IH]; intros Hout; [reflexivity|].
    simpl. destruct (String.eqb_spec (ContentOption.Name o) "within") as [E|E].
    - destruct (Hout o (or_introl eq_refl) E).
    - apply IH. intros o' Ho'. apply Hout. now right. }
  split; [exact Hnone|]. split.
  - induction pre as [|p pre IH]; intros o post Hpre Ho.
    + simpl. now rewrite Ho.
    + simpl. destruct (String.eqb_spec (ContentOption.Name p) "within") as [E|E].
      * destruct (Hpre p (or_introl eq_refl) E).
      * apply IH; [|exact Ho]. intros o' Ho'. apply Hpre. now right.
  - intros c Hc. unfold within_gap. now rewrite (Hnone _ Hc).
Qed.

Lemma within_first_option_witness :
  within ([ContentOption.Build "nocase" EmptyString; ContentOption.Build "distance" "4"]
          ++ ContentOption.Build "within" "20" :: [ContentOption.Build "within" "99"])
  = "20"
  /\ within [ContentOption.Build "depth" "3"] = EmptyString.
Proof.
  destruct within_first_option as (H1 & H2 & _).
  split.
  - apply (H2 [ContentOption.Build "nocase" EmptyString; ContentOption.Build "distance" "4"]
              (ContentOption.Build "within" "20")); [|reflexivity].
    intros o' [<-|[<-|[]]]; discriminate.
  - apply H1. intros o [<-|[]]. discriminate.
Defined.

(** X6: [Rule.CVE] returns the value of the first reference whose type is
    "cve" (case-sensitive), whatever follows it, and the empty string when
    the rule has no such reference. *)
Theorem CVE_first_reference :
  (forall r : Rule.t,
      (forall ref, In ref (Rule.References r) -> Reference.Type_ ref <> "cve") ->
      Rule.CVE r = EmptyString)
  /\ (forall (r : Rule.t) (pre : list Reference.t) (ref : Reference.t)
             (post : list Reference.t),
      Rule.References r = pre ++ ref :: post ->
      (forall x, In x pre -> Reference.Type_ x <> "cve") ->
      Reference.Type_ ref = "cve" ->
      Rule.CVE r = Reference.Value ref).
Proof.
  unfold Rule.CVE. split.
  - intros r. induction (Rule.References r) as [|x refs IH]; intros Hout; [reflexivity|].
    simpl. destruct (String.eqb_spec (Reference.Type_ x) "cve") as [E|E].
    + destruct (Hout x (or_introl eq_refl) E).
    + apply IH. intros y Hy. apply Hout. now right.
  - intros r pre ref post -> Hpre Href. induction pre as [|x pre IH].
    + simpl. now rewrite Href.
    + simpl. destruct (String.eqb_spec (Reference.Type_ x) "cve") as [E|E].
      * destruct (Hpre x (or_introl eq_refl) E).
      * apply IH. intros y Hy. apply Hpre. now right.
Qed.

Lemma CVE_first_reference_witness :
  Rule.CVE (Rule.Build false "alert" "tcp" (Network.Build [] []) (Network.Build [] [])
              false 1 1 EmptyString
              ([Reference.Build "url" "example.org"; Reference.Build "CVE" "1999-1"]
               ++ Reference.Build "cve" "2014-0160" :: [Reference.Build "cve" "2020-2"])
              [] [] [] ∅ [] [] [])
  = "2014-0160".
Proof.
  apply (proj2 CVE_first_reference _
           [Reference.Build "url" "example.org"; Reference.Build "CVE" "1999-1"]
           (Reference.Build "cve" "2014-0160") [Reference.Build "cve" "2020-2"]);
    [reflexivity | | reflexivity].
  intros x [<-|[<-|[]]]; discriminate.
Defined.

(** ** Lists of terms and of metadata *)

Lemma terms_join (l : list string) (s : string) :
  Network.terms s l = s +:+ String.concat "," l.
Proof.
  revert s. induction l as [|n l IH]; intros s.
  - simpl. now sapp_norm.
  - destruct l as [|n' l]; [reflexivity|].
    change (Network.terms s (n :: n' :: l)) with (Network.terms (s +:+ n +:+ ",") (n' :: l)).
    rewrite IH.
    change (String.concat "," (n :: n' :: l)) with (n +:+ "," +:+ String.concat "," (n' :: l)).
    now sapp_norm.
Qed.

(** X7: [netString] joins the terms with commas, in order, and puts the
    result in brackets exactly when there are two terms or more: no term
    gives the empty string and one term gives the term itself.  For every
    network, [Network.String] is the nets so joined, one space, and the
    ports so joined. *)
Theorem netString_join :
  (forall l : list string,
      Network.netString l
      = match l with
        | _ :: _ :: _ => "[" +:+ String.concat "," l +:+ "]"
        | _ => String.concat "," l
        end)
  /\ Network.netString [] = EmptyString
  /\ (forall n : string, Network.netString [n] = n)
  /\ (forall nets ports : list string,
      2 <= Z.of_nat (length nets) -> 2 <= Z.of_nat (length ports) ->
      Network.String (Network.Build nets ports)
      = "[" +:+ String.concat "," nets +:+ "] [" +:+ String.concat "," ports +:+ "]")
  /\ (forall n : Network.t,
      Network.String n
      = bracketed_join (Network.Nets n) +:+ " " +:+ bracketed_join (Network.Ports n))
  /\ (forall net port : string,
      Network.String (Network.Build [net] [port]) = net +:+ " " +:+ port).
Proof.
  assert (Hjoin : forall l : list string,
             Network.netString l
             = match l with
               | _ :: _ :: _ => "[" +:+ String.concat "," l +:+ "]"
               | _ => String.concat "," l
               end).
  { intros l. unfold Network.netString. rewrite terms_join.
    destruct l as [|a [|b l]]; try reflexivity.
    replace (1 <? Z.of_nat (length (a :: b :: l))) with true
      by (symmetry; apply Z.ltb_lt; simpl length; lia).
    now sapp_norm. }
  split; [exact Hjoin|]. split; [reflexivity|]. split; [reflexivity|].
  split; [|split].
  - intros nets ports Hn Hp. unfold Network.String. cbn [Network.Nets Network.Ports].
    rewrite !Hjoin.
    destruct nets as [|a [|b nets]]; try (simpl in Hn; lia).
    destruct ports as [|c [|d ports]]; try (simpl in Hp; lia).
    now sapp_norm.
  - intros n. unfold Network.String, bracketed_join. now rewrite !Hjoin.
  - intros net port. unfold Network.String. cbn [Network.Nets Network.Ports].
    rewrite !Hjoin. reflexivity.
Qed.

Lemma netString_join_witness :
  Network.String (Network.Build ["$HOME_NET"; "10.0.0.1"] ["80"; "8080"; "$HTTP_PORTS"])
  = "[$HOME_NET,10.0.0.1] [80,8080,$HTTP_PORTS]"
  /\ Network.String (Network.Build ["any"] ["any"]) = "any any"
  /\ Network.String (Network.Build [] ["80"; "443"]) = " [80,443]".
Proof.
  destruct netString_join as (_ & _ & _ & H4 & H5 & H6).
  split; [|split].
  - apply H4; simpl; lia.
  - apply (H6 "any" "any").
  - apply (H5 (Network.Build [] ["80"; "443"])).
Defined.

Lemma pairs_join (ms : list Metadata.t) (s : string) :
  ms <> [] ->
  Metadatas.pairs s ms = s +:+ String.concat ", " (map metadata_pair ms) +:+ ";".
Proof.
  revert s. induction ms as [|m ms IH]; intros s Hne; [congruence|].
  destruct ms as [|m' ms].
  - simpl. unfold metadata_pair. now sapp_norm.
  - change (Metadatas.pairs s (m :: m' :: ms))
      with (Metadatas.pairs
              (s +:+ (Metadata.Key m +:+ " " +:+ Metadata.Value m +:+ ", ")) (m' :: ms)).
    rewrite IH by discriminate.
    change (String.concat ", " (map metadata_pair (m :: m' :: ms)))
      with (metadata_pair m +:+ ", " +:+ String.concat ", " (map metadata_pair (m' :: ms))).
    unfold metadata_pair. now sapp_norm.
Qed.

(** X8: [Metadatas.String] returns the empty string for no metadata, and
    otherwise "metadata:" followed by the pairs "key value" in order,
    joined by a comma and a space, and one closing semicolon. *)
Theorem Metadatas_String_join :
  Metadatas.String [] = EmptyString
  /\ (forall ms : Metadatas.t,
      ms <> [] ->
      Metadatas.String ms
      = "metadata:" +:+ String.concat ", " (map metadata_pair ms) +:+ ";").
Proof.
  split; [reflexivity|]. intros ms Hne. unfold Metadatas.String.
  destruct ms as [|m ms]; [congruence|]. now apply pairs_join.
Qed.

Lemma Metadatas_String_join_witness :
  Metadatas.String [Metadata.Build "created_at" "2019_01_01"; Metadata.Build "policy" "balanced"]
  = "metadata:created_at 2019_01_01, policy balanced;".
Proof.
  apply (proj2 Metadatas_String_join
           [Metadata.Build "created_at" "2019_01_01"; Metadata.Build "policy" "balanced"]).
  discriminate.
Defined.

(** ** [PCRE] *)

Lemma escape_quotes_guarded (l : list byte) (guarded : bool) :
  quotes_guarded guarded (PCRE.escape_quotes l) = true.
Proof.
  revert guarded. induction l as [|b l IH]; intros guarded; [reflexivity|].
  simpl. destruct (Byte.eqb b x22) eqn:E.
  - simpl. apply IH.
  - simpl. rewrite E. simpl. apply IH.
Qed.

(** X9: [PCRE.String] returns the empty string for an empty pattern,
    whatever the flag and the options.  Otherwise it writes
    [pcre:], a [!] when negated, and between double quotes the pattern
    between slashes followed by the options; in the pattern written every
    double quote comes right after a backslash, a pattern without double
    quote is written as it is, and the pattern grows by one byte per double
    quote. *)
Theorem PCRE_String_quotes :
  (forall p : PCRE.t, PCRE.Pattern p = [] -> PCRE.String p = EmptyString)
  /\ (forall p : PCRE.t,
      PCRE.Pattern p <> [] ->
      PCRE.String p
      = "pcre:" +:+ (if PCRE.Negate p then "!" else EmptyString) +:+ dquote +:+ "/"
        +:+ string_of_bytes (PCRE.escape_quotes (PCRE.Pattern p)) +:+ "/"
        +:+ string_of_bytes (PCRE.Options p) +:+ dquote +:+ ";")
  /\ (forall l : list byte, quotes_guarded false (PCRE.escape_quotes l) = true)
  /\ (forall l : list byte, ~ In x22 l -> PCRE.escape_quotes l = l)
  /\ (forall l : list byte,
      length (PCRE.escape_quotes l) = (length l + count_occ byte_eq_dec l x22)%nat).
Proof.
  split; [|split; [|split; [|split]]].
  - intros p Hp. unfold PCRE.String. now rewrite Hp.
  - intros p Hp. unfold PCRE.String. destruct (PCRE.Pattern p) as [|b l]; [congruence|].
    cbn [length]. replace (Z.of_nat (S (length l)) <? 1) with false
      by (symmetry; apply Z.ltb_ge; lia).
    destruct (PCRE.Negate p); now sapp_norm.
  - intros l. apply escape_quotes_guarded.
  - induction l as [|b l IH]; intros Hout; [reflexivity|].
    simpl. simpl in Hout. destruct (Byte.eqb b x22) eqn:E.
    + apply Byte_eqb_eq in E. subst b. tauto.
    + f_equal. apply IH. tauto.
  - induction l as [|b l IH]; [reflexivity|].
    simpl. destruct (Byte.eqb b x22) eqn:E.
    + apply Byte_eqb_eq in E. subst b.
      destruct (byte_eq_dec x22 x22); [|congruence]. simpl. rewrite IH. lia.
    + apply Byte_eqb_neq in E.
      destruct (byte_eq_dec b x22); [congruence|]. simpl. rewrite IH. lia.
Qed.

Lemma PCRE_String_quotes_witness :
  PCRE.String (PCRE.Build [] true [x69]) = EmptyString
  /\ PCRE.String (PCRE.Build [x61; x22; x62] false [x69])
     = "pcre:" +:+ dquote +:+ "/a\" +:+ dquote +:+ "b/i" +:+ dquote +:+ ";"
  /\ PCRE.escape_quotes [x61; x2f; x62] = [x61; x2f; x62].
Proof.
  destruct PCRE_String_quotes as (H1 & H2 & _ & H4 & _).
  split; [|split].
  - apply H1. reflexivity.
  - apply (H2 (PCRE.Build [x61; x22; x62] false [x69])). discriminate.
  - apply H4. intros [H|[H|[H|[]]]]; discriminate H.
Defined.

(** ** More on the pattern encoder *)

Lemma all_bytes_app (p : ascii -> bool) (s t : string) :
  all_bytes p (s +:+ t) = all_bytes p s && all_bytes p t.
Proof.
  induction s as [|c s IH]; [reflexivity|].
  rewrite sapp_String. simpl. rewrite IH. apply andb_assoc.
Qed.

Lemma all_bytes_has_byte (p : ascii -> bool) (a : ascii) (s : string) :
  all_bytes p s = true -> p a = false -> has_byte a s = false.
Proof.
  intros Hs Ha. induction s as [|c s IH]; [reflexivity|].
  simpl in *. apply andb_true_iff in Hs as [Hc Hs]. rewrite (IH Hs).
  destruct (Ascii.eqb_spec c a) as [->|]; [congruence | reflexivity].
Qed.

Lemma fmt_02X_alphabet (b : byte) : all_bytes pattern_alphabet (fmt_02X b) = true.
Proof. destruct b; reflexivity. Qed.

Lemma copied_byte_alphabet (b : byte) :
  Content.hex_escaped b = false -> all_bytes pattern_alphabet (byte_string b) = true.
Proof. destruct b; intros H; first [reflexivity | discriminate H]. Qed.

Lemma FormatPattern_from_alphabet (bs : list byte) (pipe : bool) :
  all_bytes pattern_alphabet (FormatPattern_from pipe bs) = true.
Proof.
  revert pipe. induction bs as [|b bs IH]; intros pipe.
  - destruct pipe; reflexivity.
  - simpl. destruct (Content.hex_escaped b) eqn:E.
    + rewrite !all_bytes_app, fmt_02X_alphabet, IH. now destruct pipe.
    + rewrite !all_bytes_app, (copied_byte_alphabet b E), IH. now destruct pipe.
Qed.

(** X10: whatever the pattern, the text [FormatPattern] returns is made of
    spaces and of bytes in 35-126 other than the colon and the semicolon:
    it holds no double quote, no semicolon, no colon, no control byte and no
    byte above 126, so it cannot end the quoted string or the option it is
    written in. *)
Theorem FormatPattern_alphabet :
  forall c : Content.t,
    all_bytes pattern_alphabet (Content.FormatPattern c) = true
    /\ has_byte (ascii_of_nat 34) (Content.FormatPattern c) = false
    /\ has_byte ";" (Content.FormatPattern c) = false
    /\ has_byte ":" (Content.FormatPattern c) = false
    /\ all_bytes printable (Content.FormatPattern c) = true.
Proof.
  intros c.
  assert (H : all_bytes pattern_alphabet (Content.FormatPattern c) = true).
  { rewrite FormatPattern_unfold. apply FormatPattern_from_alphabet. }
  split; [exact H|].
  split; [now apply (all_bytes_has_byte pattern_alphabet)|].
  split; [now apply (all_bytes_has_byte pattern_alphabet)|].
  split; [now apply (all_bytes_has_byte pattern_alphabet)|].
  revert H. generalize (Content.FormatPattern c). intros s.
  induction s as [|a s IH]; [reflexivity|]. simpl.
  rewrite !andb_true_iff. intros [Ha Hs]. split; [|now apply IH].
  revert Ha. unfold pattern_alphabet, printable.
  rewrite !orb_true_iff, !andb_true_iff, !N.leb_le, N.eqb_eq. lia.
Qed.

(** X11: the encoding is not injective.  For every byte [b] that
    [FormatPattern] hex-escapes, the four-byte pattern [|XX|] (a pipe, the
    two hexadecimal digits of [b], a pipe), which is copied byte for byte,
    is rendered like the one-byte pattern [b]. *)
Theorem FormatPattern_collision :
  forall b : byte,
    Content.hex_escaped b = true ->
    piped_hex_bytes b <> [b]
    /\ Content.FormatPattern (content_of (piped_hex_bytes b))
       = Content.FormatPattern (content_of [b]).
Proof.
  intros b; destruct b; intros H;
    first [ discriminate H | split; [discriminate | reflexivity] ].
Qed.

Lemma FormatPattern_collision_witness :
  piped_hex_bytes x0a <> [x0a]
  /\ Content.FormatPattern (content_of (piped_hex_bytes x0a))
     = Content.FormatPattern (content_of [x0a]).
Proof. apply FormatPattern_collision. reflexivity. Defined.

Lemma FormatPattern_step_flag (st : string * bool) (b : byte) :
  snd (Content.FormatPattern_step st b) = Content.hex_escaped b.
Proof.
  destruct st as [buffer pipe]. unfold Content.FormatPattern_step.
  now destruct (Content.hex_escaped b).
Qed.

(** The state of the loop after [l1] splits what is written for [l1 ++ l2]. *)
Lemma FormatPattern_from_app (l1 l2 : list byte) :
  FormatPattern_from false (l1 ++ l2)
  = fst (fold_left Content.FormatPattern_step l1 (EmptyString, false))
    +:+ FormatPattern_from
          (snd (fold_left Content.FormatPattern_step l1 (EmptyString, false))) l2
  /\ FormatPattern_from false l1
     = fst (fold_left Content.FormatPattern_step l1 (EmptyString, false))
       +:+ (if snd (fold_left Content.FormatPattern_step l1 (EmptyString, false))
            then "|" else EmptyString).
Proof.
  pose proof (FormatPattern_loop (l1 ++ l2) EmptyString false) as Hall.
  pose proof (FormatPattern_loop l1 EmptyString false) as H1.
  rewrite fold_left_app in Hall.
  destruct (fold_left Content.FormatPattern_step l1 (EmptyString, false)) as [buf p].
  rewrite (FormatPattern_loop l2 buf p) in Hall. rewrite sapp_nil_l in Hall, H1.
  cbn [fst snd]. split; [now symmetry|].
  rewrite <- H1. destruct p; now sapp_norm.
Qed.

Lemma FormatPattern_flag_last (pre : list byte) (a : byte) :
  snd (fold_left Content.FormatPattern_step (pre ++ [a]) (EmptyString, false))
  = Content.hex_escaped a.
Proof. rewrite fold_left_app. simpl. apply FormatPattern_step_flag. Qed.

(** X12: how [FormatPattern] composes.  The encoding of two patterns put
    end to end is the two encodings put end to end when the first ends with
    a copied byte or the second starts with one; when the first ends with an
    escaped byte and the second starts with one, the two runs merge: the
    closing [|] of the first and the opening [|] of the second are replaced
    by one space. *)
Theorem FormatPattern_concatenation :
  (forall (pre : list byte) (a : byte) (l2 : list byte),
      Content.hex_escaped a = false ->
      Content.FormatPattern (content_of ((pre ++ [a]) ++ l2))
      = Content.FormatPattern (content_of (pre ++ [a]))
        +:+ Content.FormatPattern (content_of l2))
  /\ (forall (l1 : list byte) (b : byte) (post : list byte),
      Content.hex_escaped b = false ->
      Content.FormatPattern (content_of (l1 ++ b :: post))
      = Content.FormatPattern (content_of l1)
        +:+ Content.FormatPattern (content_of (b :: post)))
  /\ (forall (pre : list byte) (a b : byte) (post : list byte),
      Content.hex_escaped a = true -> Content.hex_escaped b = true ->
      exists X Y : string,
        Content.FormatPattern (content_of (pre ++ [a])) = X +:+ "|"
        /\ Content.FormatPattern (content_of (b :: post)) = "|" +:+ Y
        /\ Content.FormatPattern (content_of ((pre ++ [a]) ++ b :: post))
           = X +:+ " " +:+ Y).
Proof.
  split; [|split].
  - intros pre a l2 Ha. rewrite !FormatPattern_unfold. cbn [Content.Pattern content_of].
    destruct (FormatPattern_from_app (pre ++ [a]) l2) as [Happ H1].
    rewrite Happ, H1, FormatPattern_flag_last, Ha. now sapp_norm.
  - intros l1 b post Hb. rewrite !FormatPattern_unfold. cbn [Content.Pattern content_of].
    destruct (FormatPattern_from_app l1 (b :: post)) as [Happ H1].
    rewrite Happ, H1. simpl FormatPattern_from. rewrite Hb.
    destruct (snd (fold_left Content.FormatPattern_step l1 (EmptyString, false)));
      now sapp_norm.
  - intros pre a b post Ha Hb.
    destruct (FormatPattern_from_app (pre ++ [a]) (b :: post)) as [Happ H1].
    rewrite FormatPattern_flag_last, Ha in Happ, H1.
    exists (fst (fold_left Content.FormatPattern_step (pre ++ [a]) (EmptyString, false))),
      (fmt_02X b +:+ FormatPattern_from true post).
    rewrite !FormatPattern_unfold. cbn [Content.Pattern content_of].
    rewrite Happ, H1. simpl FormatPattern_from. rewrite Hb. repeat split; now sapp_norm.
Qed.

Lemma FormatPattern_concatenation_witness :
  Content.FormatPattern (content_of (([x00] ++ [x41]) ++ [x0a]))
  = Content.FormatPattern (content_of ([x00] ++ [x41]))
    +:+ Content.FormatPattern (content_of [x0a])
  /\ Content.FormatPattern (content_of ([x0d] ++ x42 :: [x0a]))
     = Content.FormatPattern (content_of [x0d])
       +:+ Content.FormatPattern (content_of (x42 :: [x0a]))
  /\ (exists X Y : string,
         Content.FormatPattern (content_of ([x41] ++ [x0d])) = X +:+ "|"
         /\ Content.FormatPattern (content_of (x0a :: [x42])) = "|" +:+ Y
         /\ Content.FormatPattern (content_of (([x41] ++ [x0d]) ++ x0a :: [x42]))
            = X +:+ " " +:+ Y).
Proof.
  destruct FormatPattern_concatenation as (H1 & H2 & H3).
  split; [|split].
  - apply H1. reflexivity.
  - apply H2. reflexivity.
  - apply H3; reflexivity.
Defined.

(** ** The loose regular expression *)

Lemma ToRegexp_loop (bs : list byte) (buffer : string) :
  fold_left Content.ToRegexp_step bs buffer
  = buffer +:+ concat_strings (map loose_byte bs).
Proof.
  revert buffer. apply fold_left_writer. intros s b.
  unfold Content.ToRegexp_step, loose_byte.
  now destruct ((126 <? Byte.to_N b)%N || (Byte.to_N b <? 32)%N).
Qed.

Lemma escape_class_app (special : ascii -> bool) (s t : string) :
  escape_class special (s +:+ t) = escape_class special s +:+ escape_class special t.
Proof.
  induction s as [|c s IH]; [reflexivity|].
  rewrite sapp_String. simpl. rewrite IH. now destruct (special c).
Qed.

Lemma concat_strings_app (l1 l2 : list string) :
  concat_strings (l1 ++ l2) = concat_strings l1 +:+ concat_strings l2.
Proof.
  induction l1 as [|s l1 IH]; [reflexivity|].
  simpl. rewrite IH. now sapp_norm.
Qed.

Lemma loose_byte_printable (b : byte) :
  all_bytes printable (QuoteMeta (loose_byte b)) = true.
Proof. destruct b; reflexivity. Qed.

(** X13: [ToRegexp] works byte by byte.  The expression of two patterns
    put end to end is the two expressions put end to end; the expression is
    made of printable bytes (32-126) only; and a pattern of letters and
    digits is its own expression. *)
Theorem ToRegexp_bytewise :
  (forall l1 l2 : list byte,
      Content.ToRegexp (content_of (l1 ++ l2))
      = Content.ToRegexp (content_of l1) +:+ Content.ToRegexp (content_of l2))
  /\ (forall c : Content.t, all_bytes printable (Content.ToRegexp c) = true)
  /\ (forall c : Content.t,
      forallb (fun b => let n := Byte.to_N b in
                        ((48 <=? n) && (n <=? 57) || (65 <=? n) && (n <=? 90)
                         || (97 <=? n) && (n <=? 122))%N)
              (Content.Pattern c) = true ->
      Content.ToRegexp c = string_of_bytes (Content.Pattern c)).
Proof.
  assert (Hunfold : forall c, Content.ToRegexp c
                              = concat_strings
                                  (map (fun b => QuoteMeta (loose_byte b)) (Content.Pattern c))).
  { intros c. unfold Content.ToRegexp. rewrite ToRegexp_loop, sapp_nil_l.
    induction (Content.Pattern c) as [|b bs IH]; [reflexivity|].
    simpl. unfold QuoteMeta in *. now rewrite escape_class_app, IH. }
  split; [|split].
  - intros l1 l2. rewrite !Hunfold. cbn [Content.Pattern content_of].
    now rewrite map_app, concat_strings_app.
  - intros c. rewrite Hunfold. induction (Content.Pattern c) as [|b bs IH]; [reflexivity|].
    simpl. now rewrite all_bytes_app, loose_byte_printable, IH.
  - intros c Hc. rewrite Hunfold. induction (Content.Pattern c) as [|b bs IH]; [reflexivity|].
    simpl in Hc. apply andb_true_iff in Hc as [Hb Hbs].
    simpl. rewrite (IH Hbs), string_of_bytes_cons. f_equal.
    clear -Hb. destruct b; first [reflexivity | discriminate Hb].
Qed.

Lemma ToRegexp_bytewise_witness :
  Content.ToRegexp (content_of [x47; x45; x54; x31]) = "GET1".
Proof.
  apply (proj2 (proj2 ToRegexp_bytewise) (content_of [x47; x45; x54; x31])). reflexivity.
Defined.

(** ** More on the pass over the matchers *)

Lemma directives_head (d : DataPos.t) (ms : list orderedMatcher) :
  stutter_free (directives (emission tracked_content d ms))
  /\ head (directives (emission tracked_content d ms)) <> Some d.
Proof.
  revert d. induction ms as [|m ms IH]; intros d; [split; [exact I | discriminate]|].
  cbn [emission]. destruct (tracked_content m) as [p|]; [|exact (IH d)].
  destruct (Z.eqb_spec d p) as [->|Hne]; [exact (IH p)|].
  destruct (IH p) as [Hsf Hhd]. cbn [directives flat_map app].
  fold (directives (emission tracked_content p ms)). split.
  - destruct (directives (emission tracked_content p ms)) as [|q ds]; [exact I|].
    split; [|exact Hsf]. intros ->. now apply Hhd.
  - simpl. congruence.
Qed.

Lemma last_cons_default (l : list Z) (p d : Z) :
  List.last (p :: l) d = List.last l p.
Proof.
  revert p. induction l as [|q l IH]; intros p; [reflexivity|].
  change (List.last (p :: q :: l) d) with (List.last (q :: l) d).
  change (List.last (q :: l) p) with (match l with [] => q | _ => List.last l p end).
  rewrite IH. destruct l as [|q' l]; [reflexivity|].
  rewrite <- (IH q), <- (IH p). reflexivity.
Qed.

Lemma matcher_loop_cursor (ms : list orderedMatcher) (s : string) (d : DataPos.t) :
  snd (fold_left Rule.matcher_step ms (s, d)) = List.last (content_positions ms) d.
Proof.
  revert s d. induction ms as [|m ms IH]; intros s d; [reflexivity|].
  cbn [fold_left]. destruct m as [c|p|b|t]; cbn [Rule.matcher_step]; try apply IH.
  change (content_positions (MContent c :: ms))
    with (Content.DataPosition c :: content_positions ms).
  rewrite last_cons_default.
  destruct (Z.eqb_spec d (Content.DataPosition c)) as [->|Hne]; cbn [negb]; apply IH.
Qed.

Lemma directives_contents_only (d : DataPos.t) (ms : list orderedMatcher) :
  directives (emission tracked_content d ms)
  = directives (emission tracked_content d (List.filter is_content ms)).
Proof.
  revert d. induction ms as [|m ms IH]; intros d; [reflexivity|].
  destruct m as [c|p|b|t]; cbn [List.filter is_content emission tracked_content];
    try apply IH.
  destruct (d =? Content.DataPosition c); cbn [directives flat_map app];
    fold (directives (emission tracked_content d ms));
    fold (directives (emission tracked_content (Content.DataPosition c) ms));
    fold (directives (emission tracked_content d (List.filter is_content ms)));
    fold (directives (emission tracked_content (Content.DataPosition c)
                        (List.filter is_content ms)));
    now rewrite IH.
Qed.

Lemma directives_none_iff (d : DataPos.t) (ms : list orderedMatcher) :
  directives (emission tracked_content d ms) = []
  <-> Forall (fun p => p = d) (content_positions ms).
Proof.
  revert d. induction ms as [|m ms IH]; intros d; [split; [constructor | reflexivity]|].
  destruct m as [c|p|b|t]; cbn [emission tracked_content]; try apply IH.
  unfold content_positions. cbn [omap tracked_content]. fold (content_positions ms).
  destruct (Z.eqb_spec d (Content.DataPosition c)) as [->|Hne].
  - cbn [directives flat_map app].
    fold (directives (emission tracked_content (Content.DataPosition c) ms)).
    rewrite IH. split; [now constructor | now inversion 1].
  - split; [discriminate|]. inversion 1; congruence.
Qed.

Lemma directives_count (d : DataPos.t) (ms : list orderedMatcher) :
  (length (directives (emission tracked_content d ms)) <= length (content_positions ms))%nat.
Proof.
  revert d. induction ms as [|m ms IH]; intros d; [reflexivity|].
  destruct m as [c|p|b|t]; cbn [emission tracked_content]; try apply IH.
  change (content_positions (MContent c :: ms))
    with (Content.DataPosition c :: content_positions ms).
  destruct (d =? Content.DataPosition c).
  - change (directives (Clause (MContent c) :: emission tracked_content d ms))
      with (directives (emission tracked_content d ms)).
    specialize (IH d). simpl length. lia.
  - change (directives (Directive (Content.DataPosition c) :: Clause (MContent c)
                        :: emission tracked_content (Content.DataPosition c) ms))
      with (Content.DataPosition c
            :: directives (emission tracked_content (Content.DataPosition c) ms)).
    specialize (IH (Content.DataPosition c)). simpl length. lia.
Qed.

(** X14: the directives of one pass of [Rule.String].  The loop over the
    matchers, from any builder [s] and cursor [d], writes the emission of
    the contents and ends with the cursor on the position of the last
    content (on [d] when there is none).  In that emission no two
    successive directives select the same buffer and the first one does not
    select [d]; there are at most as many directives as contents; there is
    none exactly when every content is at [d]; and the matchers that are
    not contents have no effect on the directives. *)
Theorem matcher_loop_directives :
  forall (ms : list orderedMatcher) (s : string) (d : DataPos.t),
    fold_left Rule.matcher_step ms (s, d)
    = (s +:+ concat_strings (map emitted_text (emission tracked_content d ms)),
       List.last (content_positions ms) d)
    /\ stutter_free (directives (emission tracked_content d ms))
    /\ head (directives (emission tracked_content d ms)) <> Some d
    /\ (length (directives (emission tracked_content d ms))
        <= length (content_positions ms))%nat
    /\ (directives (emission tracked_content d ms) = []
        <-> Forall (fun p => p = d) (content_positions ms))
    /\ directives (emission tracked_content d ms)
       = directives (emission tracked_content d (List.filter is_content ms)).
Proof.
  intros ms s d. split; [|split; [|split; [|split; [|split]]]].
  - rewrite (surjective_pairing (fold_left Rule.matcher_step ms (s, d))).
    now rewrite matcher_loop, matcher_loop_cursor.
  - apply directives_head.
  - apply directives_head.
  - apply directives_count.
  - apply directives_none_iff.
  - apply directives_contents_only.
Qed.

(** X15: a rule whose contents are all in the default buffer is rendered
    with no directive: between the header and the trailer [Rule.String]
    writes the clause of each matcher, in order, each followed by one
    space. *)
Theorem Rule_String_default_buffer :
  forall (tags : list (string * string)) (r : Rule.t),
    Forall (fun p => p = DataPos.pktData) (content_positions (Rule.Matchers r)) ->
    Rule.String tags r
    = Rule_header r
      +:+ concat_strings (map (fun m => orderedMatcher_String m +:+ " ") (Rule.Matchers r))
      +:+ Rule_trailer tags r.
Proof.
  intros tags r Hr. rewrite Rule_String_parts. f_equal. f_equal.
  generalize dependent (Rule.Matchers r). intros ms.
  induction ms as [|m ms IH]; intros Hms; [reflexivity|].
  destruct m as [c|p|b|t]; cbn [emission tracked_content map concat_strings emitted_text].
  - unfold content_positions in Hms. cbn [omap tracked_content] in Hms.
    inversion Hms as [|? ? Hc Hrest]; subst. rewrite Hc.
    change (DataPos.pktData =? DataPos.pktData) with true.
    cbn [map concat_strings emitted_text]. now rewrite (IH Hrest).
  - now rewrite (IH Hms).
  - now rewrite (IH Hms).
  - now rewrite (IH Hms).
Qed.

Lemma Rule_String_default_buffer_witness :
  Rule.String []
    (rule_of [MContent (content_of [x61]);
              MByteMatch (ByteMatch.Build DataPos.fileData byteMatcher.bJump EmptyString 4
                            EmptyString 0 12 []);
              MPCRE (PCRE.Build [x62] false [])])
  = Rule_header (rule_of [])
    +:+ ("content:" +:+ dquote +:+ "a" +:+ dquote +:+ "; byte_jump:4,12; pcre:" +:+ dquote
         +:+ "/b/" +:+ dquote +:+ "; ")
    +:+ Rule_trailer [] (rule_of []).
Proof.
  refine (eq_trans (Rule_String_default_buffer [] _ _) _).
  - repeat constructor.
  - vm_compute. reflexivity.
Defined.

(** ** The rule as a whole *)

(** X16: disabling a rule only puts a [#] in front of its text. *)
Theorem Rule_String_disabled_prefix :
  forall (tags : list (string * string)) (r : Rule.t),
    Rule.String tags (with_Disabled true r)
    = "#" +:+ Rule.String tags (with_Disabled false r).
Proof.
  intros tags r. rewrite !Rule_String_parts.
  unfold Rule_header, Rule_trailer, with_Disabled. cbn [Rule.Disabled Rule.Action
    Rule.Protocol Rule.Source Rule.Destination Rule.Bidirectional Rule.SID Rule.Revision
    Rule.Description Rule.References Rule.Metas Rule.Flowbits Rule.Matchers].
  now sapp_norm.
Qed.

Lemma slength_app (s t : string) :
  String.length (s +:+ t) = (String.length s + String.length t)%nat.
Proof.
  induction s as [|c s IH]; [reflexivity|].
  rewrite sapp_String. simpl. now rewrite IH.
Qed.

Lemma tags_length_perm (tags1 tags2 : list (string * string)) :
  tags1 ≡ₚ tags2 ->
  String.length (concat_strings (map tag_text tags1))
  = String.length (concat_strings (map tag_text tags2)).
Proof.
  induction 1 as [|x l l' _ IH|x y l|l l' l'' _ IH1 _ IH2]; simpl.
  - reflexivity.
  - now rewrite !slength_app, IH.
  - rewrite !slength_app. lia.
  - congruence.
Qed.

(** X17: the order in which Go visits the map [Tags] touches the block of
    tags only.  Every text [Rule.String] may return is the same prefix, the
    tags "key:value; " in the order of the visit, and the same suffix; all
    these texts have the same length; and a rule with at most one tag has
    only one text. *)
Theorem Rule_String_tag_order :
  forall r : Rule.t,
    (exists before after : string,
        forall tags : list (string * string),
          Rule.String tags r
          = before +:+ concat_strings (map tag_text tags) +:+ after)
    /\ (forall out1 out2 : string,
        Rule.String_returns r out1 -> Rule.String_returns r out2 ->
        String.length out1 = String.length out2)
    /\ (forall out1 out2 : string,
        (size (Rule.Tags r) <= 1)%nat ->
        Rule.String_returns r out1 -> Rule.String_returns r out2 ->
        out1 = out2).
Proof.
  intros r.
  assert (Hparts : exists before after : string,
             forall tags : list (string * string),
               Rule.String tags r
               = before +:+ concat_strings (map tag_text tags) +:+ after).
  { eexists (Rule_header r
             +:+ concat_strings
                   (map emitted_text
                        (emission tracked_content DataPos.pktData (Rule.Matchers r)))
             +:+ match Rule.Metas r with
                 | [] => EmptyString
                 | _ => Metadatas.String (Rule.Metas r) +:+ " "
                 end), _.
    intros tags. rewrite Rule_String_parts. unfold Rule_trailer.
    change (fun kv : string * string => fst kv +:+ ":" +:+ snd kv +:+ "; ") with tag_text.
    rewrite !sapp_assoc. reflexivity. }
  split; [exact Hparts|]. split.
  - destruct Hparts as (before & after & Hparts).
    intros out1 out2 (t1 & Hp1 & ->) (t2 & Hp2 & ->).
    rewrite !Hparts, !slength_app. f_equal. f_equal.
    apply tags_length_perm. now rewrite Hp1, Hp2.
  - intros out1 out2 Hsize (t1 & Hp1 & ->) (t2 & Hp2 & ->).
    rewrite <- length_map_to_list in Hsize.
    destruct (map_to_list (Rule.Tags r)) as [|x [|y l]].
    + apply Permutation_nil_r in Hp1, Hp2. now subst.
    + apply Permutation_singleton_r in Hp1, Hp2. now subst.
    + simpl in Hsize. lia.
Qed.

Lemma Rule_String_tag_order_witness :
  Rule.String [("classtype", "trojan-activity")]
    (rule_of_tags {[ "classtype" := "trojan-activity" ]})
  = Rule.String (map_to_list (Rule.Tags (rule_of_tags {[ "classtype" := "trojan-activity" ]})))
      (rule_of_tags {[ "classtype" := "trojan-activity" ]}).
Proof.
  apply (proj2 (proj2 (Rule_String_tag_order
                         (rule_of_tags {[ "classtype" := "trojan-activity" ]})))).
  - cbn [Rule.Tags rule_of_tags]. rewrite map_size_singleton. lia.
  - eexists. split; [|reflexivity]. cbn [Rule.Tags rule_of_tags].
    now rewrite map_to_list_singleton.
  - eexists. split; [|reflexivity]. reflexivity.
Defined.

(** ** More on the records *)

Lemma byteMatcherVals_key_cases (b : Z) (s : string) :
  byteMatcher.byteMatcherVals !! b = Some s ->
  b = byteMatcher.bExtract \/ b = byteMatcher.bTest \/ b = byteMatcher.bJump.
Proof.
  intros Hb. apply elem_of_list_to_map_2 in Hb.
  unfold byteMatcher.byteMatcherVals_entries in Hb.
  rewrite !elem_of_cons in Hb. destruct Hb as [H|[H|[H|H]]];
    [inversion H; auto .. | inversion H].
Qed.

(** X18: a [ByteMatch] whose kind is none of extract, jump, test (the
    kind [bUnknown] among them) is still rendered: [ByteMatch.String]
    writes an empty keyword and no argument, that is a colon, the options
    each after a comma, and a semicolon. *)
Theorem ByteMatch_String_unknown_kind :
  forall b : ByteMatch.t,
    ByteMatch.Kind b <> byteMatcher.bExtract ->
    ByteMatch.Kind b <> byteMatcher.bJump ->
    ByteMatch.Kind b <> byteMatcher.bTest ->
    ByteMatch.String b = ":" +:+ comma_options (ByteMatch.Options b) +:+ ";".
Proof.
  intros b He Hj Ht. unfold ByteMatch.String.
  assert (Hnone : byteMatcher.byteMatcherVals !! ByteMatch.Kind b = None).
  { destruct (byteMatcher.byteMatcherVals !! ByteMatch.Kind b) as [s|] eqn:E; [|reflexivity].
    destruct (byteMatcherVals_key_cases _ _ E) as [H|[H|H]]; congruence. }
  rewrite Hnone. apply Z.eqb_neq in He, Hj, Ht. rewrite He, Hj, Ht.
  rewrite (fold_left_writer ByteMatch.write_option (fun o => "," +:+ o)) by reflexivity.
  fold (comma_options (ByteMatch.Options b)). simpl. now sapp_norm.
Qed.

Lemma ByteMatch_String_unknown_kind_witness :
  ByteMatch.String
    (ByteMatch.Build DataPos.pktData byteMatcher.bUnknown "v" 4 ">" 100 0 ["relative"])
  = ":,relative;".
Proof.
  apply (ByteMatch_String_unknown_kind
           (ByteMatch.Build DataPos.pktData byteMatcher.bUnknown "v" 4 ">" 100 0 ["relative"]));
    discriminate.
Defined.

Lemma sapp_String_nonempty (c : ascii) (s t : string) : String c s +:+ t <> EmptyString.
Proof. rewrite sapp_String. discriminate. Qed.

(** X19: [FastPattern.String] returns the empty string in no other case
    than a fast pattern that is not enabled, or one with [Only] set and a
    non-zero [Offset] or [Length].  With [Only] clear and both numbers
    non-zero it returns "fast_pattern:<offset>,<length>;".  A content whose
    fast pattern is enabled and renders as the empty string is written like
    the content without fast pattern followed by one space. *)
Theorem FastPattern_String_cases :
  (forall f : FastPattern.t,
      FastPattern.String f = EmptyString
      <-> FastPattern.Enabled f = false
          \/ (FastPattern.Only f = true
              /\ (FastPattern.Offset f <> 0 \/ FastPattern.Length f <> 0)))
  /\ (forall f : FastPattern.t,
      FastPattern.Enabled f = true -> FastPattern.Only f = false ->
      FastPattern.Offset f <> 0 -> FastPattern.Length f <> 0 ->
      FastPattern.String f
      = "fast_pattern:" +:+ fmt_d (FastPattern.Offset f) +:+ ","
        +:+ fmt_d (FastPattern.Length f) +:+ ";")
  /\ (forall c : Content.t,
      FastPattern.Enabled (Content.FastPattern c) = true ->
      FastPattern.String (Content.FastPattern c) = EmptyString ->
      Content.String c = Content.String (without_fast_pattern c) +:+ " ").
Proof.
  split; [|split].
  - intros f. unfold FastPattern.String.
    destruct (FastPattern.Enabled f); [|simpl; split; auto].
    destruct (FastPattern.Only f);
      destruct (Z.eqb_spec (FastPattern.Offset f) 0), (Z.eqb_spec (FastPattern.Length f) 0);
      simpl; split;
      try (intros H; exfalso; revert H; apply sapp_String_nonempty);
      try (intros [H|[H1 [H|H]]]; congruence);
      try (intros _; right; split; [reflexivity|]; auto);
      try reflexivity.
  - intros f He Ho Hoff Hlen. unfold FastPattern.String. rewrite He, Ho.
    apply Z.eqb_neq in Hoff, Hlen. rewrite Hoff, Hlen. simpl. now sapp_norm.
  - intros c He Hs. unfold Content.String, without_fast_pattern, Content.FormatPattern.
    cbn [Content.Negate Content.Pattern Content.Options Content.FastPattern
         FastPattern.Enabled].
    rewrite He, Hs. now sapp_norm.
Qed.

Lemma FastPattern_String_cases_witness :
  FastPattern.String (FastPattern.Build true false 2 8) = "fast_pattern:2,8;"
  /\ Content.String (Content.Build DataPos.pktData (FastPattern.Build true true 1 0)
                       [x61] false [])
     = "content:" +:+ dquote +:+ "a" +:+ dquote +:+ "; ".
Proof.
  destruct FastPattern_String_cases as (_ & H2 & H3).
  split.
  - apply (H2 (FastPattern.Build true false 2 8)); [reflexivity | reflexivity | | ];
      simpl; lia.
  - refine (eq_trans (H3 (Content.Build DataPos.pktData (FastPattern.Build true true 1 0)
                            [x61] false []) eq_refl eq_refl) _).
    vm_compute. reflexivity.
Defined.

(** X20: [Flowbit.String] returns the empty string in no other case than
    an action outside the closed set; an action of the set with an empty
    value is written "flowbits:<action>;"; and in [Rule.String] a flowbit
    with an action outside the set still writes one space. *)
Theorem Flowbit_String_cases :
  (forall fb : Flowbit.t,
      Flowbit.String fb = EmptyString <-> ~ In (Flowbit.Action fb) flowbit_actions)
  /\ (forall fb : Flowbit.t,
      In (Flowbit.Action fb) flowbit_actions -> Flowbit.Value fb = EmptyString ->
      Flowbit.String fb = "flowbits:" +:+ Flowbit.Action fb +:+ ";")
  /\ (forall (s : string) (fb : Flowbit.t),
      ~ In (Flowbit.Action fb) flowbit_actions ->
      Rule.write_flowbit s fb = s +:+ " ").
Proof.
  assert (Hout : forall fb : Flowbit.t,
             ~ In (Flowbit.Action fb) flowbit_actions -> Flowbit.String fb = EmptyString).
  { intros fb H. apply inSlice_not_In in H. unfold Flowbit.String.
    fold flowbit_actions. now rewrite H. }
  split; [|split].
  - intros fb. split; [|apply Hout].
    intros Hs Hin. apply inSlice_In in Hin. unfold Flowbit.String in Hs.
    fold flowbit_actions in Hs. rewrite Hin in Hs. simpl in Hs.
    revert Hs. destruct (negb (String.eqb (Flowbit.Value fb) EmptyString));
      rewrite ?sapp_assoc; apply sapp_String_nonempty.
  - intros fb Hin Hval. apply inSlice_In in Hin. unfold Flowbit.String.
    fold flowbit_actions. rewrite Hin, Hval. simpl. now sapp_norm.
  - intros s fb H. unfold Rule.write_flowbit. now rewrite (Hout fb H).
Qed.

Lemma Flowbit_String_cases_witness :
  Flowbit.String (Flowbit.Build "noalert" EmptyString) = "flowbits:noalert;"
  /\ Rule.write_flowbit "x" (Flowbit.Build "Set" "seen") = "x ".
Proof.
  destruct Flowbit_String_cases as (_ & H2 & H3).
  split.
  - apply (H2 (Flowbit.Build "noalert" EmptyString)); [apply inSlice_In|]; reflexivity.
  - apply H3. apply inSlice_not_In. reflexivity.
Defined.

Lemma write_options (opts : list ContentOption.t) (s : string) :
  fold_left Content.write_option opts s
  = s +:+ concat_strings (map (fun o => " " +:+ ContentOption.String o) opts).
Proof. now apply fold_left_writer. Qed.

(** X21: the layout of a content.  [Content.String] writes [content:], a
    [!] when negated, the encoded pattern between double quotes and a
    semicolon, then every option in order after one space, then, when the
    fast pattern is enabled, a space and the fast pattern.  An option is
    written "name:value;" when its name is byte_extract, depth, distance,
    offset or within; for any other name the value is not written. *)
Theorem Content_String_layout :
  (forall c : Content.t,
      Content.String c
      = "content:" +:+ (if Content.Negate c then "!" else EmptyString)
        +:+ dquote +:+ Content.FormatPattern c +:+ dquote +:+ ";"
        +:+ concat_strings (map (fun o => " " +:+ ContentOption.String o) (Content.Options c))
        +:+ (if FastPattern.Enabled (Content.FastPattern c)
             then " " +:+ FastPattern.String (Content.FastPattern c)
             else EmptyString))
  /\ (forall o : ContentOption.t,
      In (ContentOption.Name o) valued_options ->
      ContentOption.String o = ContentOption.Name o +:+ ":" +:+ ContentOption.Value o +:+ ";")
  /\ (forall o : ContentOption.t,
      ~ In (ContentOption.Name o) valued_options ->
      ContentOption.String o = ContentOption.Name o +:+ ";").
Proof.
  split; [|split].
  - intros c. unfold Content.String. rewrite write_options.
    destruct (Content.Negate c), (FastPattern.Enabled (Content.FastPattern c));
      now sapp_norm.
  - intros o Ho. apply inSlice_In in Ho. unfold ContentOption.String.
    fold valued_options. now rewrite Ho.
  - intros o Ho. apply inSlice_not_In in Ho. unfold ContentOption.String.
    fold valued_options. now rewrite Ho.
Qed.

Lemma Content_String_layout_witness :
  ContentOption.String (ContentOption.Build "depth" "12") = "depth:12;"
  /\ ContentOption.String (ContentOption.Build "http_uri" "ignored") = "http_uri;".
Proof.
  destruct Content_String_layout as (_ & H2 & H3).
  split.
  - apply (H2 (ContentOption.Build "depth" "12")). apply inSlice_In. reflexivity.
  - apply (H3 (ContentOption.Build "http_uri" "ignored")). apply inSlice_not_In. reflexivity.
Defined.
